(** * MassSpec_FHE: the dataset registry of [frontend/web/src/App.tsx]

    A shallow embedding of the registry and status workflow implemented by the
    React component [App]: [loadDataList] (listing), [uploadData] (create),
    [analyzeData] (the analyze transition), [isOwner], the per-status counters
    and the bar chart heights.

    Conventions of the embedding.
    - JavaScript values that come out of [JSON.parse] are values of [json];
      [undefined] is [None] of [jsval].  Numbers are the integers (the only
      numbers the program writes are timestamps in seconds); strings are
      sequences of code units below 256.  The heights of the bar chart are
      exact rationals.
    - The built-in functions of the platform ([JSON.parse], [JSON.stringify],
      [ethers.toUtf8Bytes], [ethers.toUtf8String], [btoa]) are the fields of
      the class [Platform]; the program is written once for every platform.
    - [async] functions are computations of the monad [M]: a state passing
      function over [World] that returns a value or throws.
    - The ledger contract ([./contract], not part of the sources at hand) is
      the [Env] part of the world. *)

From Stdlib Require Import ZArith List String Ascii Permutation Sorted Lia.
From Stdlib.Strings Require Import Byte.
From Stdlib Require Import QArith DecimalString DecimalZ.
From stdpp Require Import base option list strings gmap.

Set Warnings "-register-all".

Local Open Scope string_scope.
Local Open Scope Z_scope.
Local Open Scope list_scope.

(** ** JavaScript values *)

Inductive json : Type :=
| JNull
| JBool (b : bool)
| JNum (n : Z)
| JStr (s : string)
| JArr (items : list json)
| JObj (fields : list (string * json)).

(** A value read from a property or a variable: [None] is [undefined]. *)
Definition jsval : Type := option json.

(** What a JavaScript [throw] carries.  [JsError] is [new Error(message)];
    [TransportError] is the rejection of a contract call; the other three are
    thrown by the platform. *)
Inductive exn : Type :=
| JsError (message : string)
| TransportError (message : string)
| SyntaxError
| TypeError
| Utf8Error.

Inductive Result (A : Type) : Type :=
| Ok (a : A)
| Throw (e : exn).
Arguments Ok {A} a.
Arguments Throw {A} e.

(** [e.message].  The texts of the platform's own errors depend on the engine;
    fixed representatives stand for them. *)
Definition exn_message (e : exn) : string :=
  match e with
  | JsError m => m
  | TransportError m => m
  | SyntaxError => "Unexpected token in JSON"
  | TypeError => "Cannot read properties"
  | Utf8Error => "invalid codepoint"
  end.

(** [Number.prototype.toString] on an integer, as a template literal uses it. *)
Definition Z_to_string (n : Z) : string := NilZero.string_of_int (Z.to_int n).

Definition nat_to_string (n : nat) : string := Z_to_string (Z.of_nat n).

(** [Array.prototype.join]. *)
Fixpoint join (sep : string) (l : list string) : string :=
  match l with
  | [] => ""
  | [s] => s
  | s :: r => s +:+ sep +:+ join sep r
  end.

(** [ToString], the coercion of [`${v}`]. *)
Fixpoint ToString (v : json) : string :=
  match v with
  | JNull => "null"
  | JBool true => "true"
  | JBool false => "false"
  | JNum n => Z_to_string n
  | JStr s => s
  | JArr l =>
      join ","
        ((fix items (l : list json) : list string :=
            match l with
            | [] => []
            | JNull :: r => "" :: items r
            | x :: r => ToString x :: items r
            end) l)
  | JObj _ => "[object Object]"
  end.

(** [ToBoolean], the test of [||] and [&&]. *)
Definition truthy (v : jsval) : bool :=
  match v with
  | None => false
  | Some JNull => false
  | Some (JBool b) => b
  | Some (JNum n) => negb (n =? 0)
  | Some (JStr s) => negb (String.eqb s "")
  | Some (JArr _) => true
  | Some (JObj _) => true
  end.

(** [v === "s"] for a string literal [s]. *)
Definition strict_eq_str (v : json) (s : string) : bool :=
  match v with
  | JStr t => String.eqb t s
  | _ => false
  end.

(** Lookup of an own property in an object's list of fields. *)
Fixpoint assoc (k : string) (fs : list (string * json)) : jsval :=
  match fs with
  | [] => None
  | (k', v) :: r => if String.eqb k k' then Some v else assoc k r
  end.

(** [v.k] for the property names this program reads ([data], [timestamp],
    [owner], [sampleType], [status], [fheResult]), none of which is a built-in
    property of a string, an array, a number or a boolean: reading from
    [null] throws, reading a missing property is [undefined]. *)
Definition get_prop (v : json) (k : string) : Result jsval :=
  match v with
  | JNull => Throw TypeError
  | JObj fs => Ok (assoc k fs)
  | _ => Ok None
  end.

(** Assignment of a property whose name is not an array index: an existing
    property keeps its place, a new one goes last. *)
Fixpoint obj_set (fs : list (string * json)) (k : string) (v : json)
  : list (string * json) :=
  match fs with
  | [] => [(k, v)]
  | (k', v') :: r =>
      if String.eqb k k' then (k', v) :: r else (k', v') :: obj_set r k v
  end.

(** The own enumerable properties that [{...v}] copies. *)
Definition spread (v : json) : list (string * json) :=
  match v with
  | JObj fs => fs
  | JArr l => imap (fun i x => (nat_to_string i, x)) l
  | JStr s =>
      imap (fun i c => (nat_to_string i, JStr (String c EmptyString)))
           (list_ascii_of_string s)
  | _ => []
  end.

(** The values [for (const key of v)] visits; iterating anything but an array
    or a string throws. *)
Definition iterate (v : json) : Result (list json) :=
  match v with
  | JArr l => Ok l
  | JStr s =>
      Ok (List.map (fun c => JStr (String c EmptyString)) (list_ascii_of_string s))
  | _ => Throw TypeError
  end.

(** [keys.push(x)]: only an array has [push]. *)
Definition push (keys : json) (x : json) : Result json :=
  match keys with
  | JArr l => Ok (JArr (l ++ [x]))
  | _ => Throw TypeError
  end.

(** [String.prototype.toLowerCase] on code units below 256. *)
Definition lower_char (c : ascii) : ascii :=
  let n := nat_of_ascii c in
  if ((65 <=? n)%nat && (n <=? 90)%nat)
     || ((192 <=? n)%nat && (n <=? 222)%nat && negb (n =? 215)%nat)
  then ascii_of_nat (n + 32)
  else c.

Fixpoint toLowerCase (s : string) : string :=
  match s with
  | EmptyString => EmptyString
  | String c r => String (lower_char c) (toLowerCase r)
  end.

(** [String.prototype.includes]. *)
Fixpoint includes (s sub : string) : bool :=
  String.prefix sub s
  || match s with
     | EmptyString => false
     | String _ r => includes r sub
     end.

(** [m || d] on strings. *)
Definition or_str (m d : string) : string :=
  if String.eqb m "" then d else m.

(** ** The platform *)

Class Platform : Type := {
  (** [JSON.parse]; [None] is a thrown [SyntaxError]. *)
  JSON_parse : string -> option json;
  JSON_stringify : json -> string;
  (** [ethers.toUtf8Bytes] and [ethers.toUtf8String]; the latter throws on
      bytes that are not UTF-8. *)
  toUtf8Bytes : string -> list byte;
  toUtf8String : list byte -> option string;
  btoa : string -> string;
  (** [Number(s)] for a string [s]; [None] is [NaN]. *)
  StringToNumber : string -> option Z
}.

(** The values on which [JSON.parse] inverts [JSON.stringify]: safe integers,
    objects whose property names are pairwise different and none of which is
    written in digits only (such names are array indices, which JavaScript
    reorders). *)
Definition all_digits (s : string) : bool :=
  forallb (fun c => (48 <=? nat_of_ascii c)%nat && (nat_of_ascii c <=? 57)%nat)
          (list_ascii_of_string s).

Fixpoint distinct (l : list string) : bool :=
  match l with
  | [] => true
  | k :: r => negb (existsb (String.eqb k) r) && distinct r
  end.

Definition safe_integer (n : Z) : bool :=
  (- 9007199254740991 <=? n) && (n <=? 9007199254740991).

Fixpoint json_wfb (v : json) : bool :=
  match v with
  | JNull => true
  | JBool _ => true
  | JNum n => safe_integer n
  | JStr _ => true
  | JArr l =>
      (fix all (l : list json) : bool :=
         match l with
         | [] => true
         | x :: r => json_wfb x && all r
         end) l
  | JObj fs =>
      distinct (List.map fst fs)
      && forallb (fun k => negb (all_digits k)) (List.map fst fs)
      && (fix all (fs : list (string * json)) : bool :=
            match fs with
            | [] => true
            | (_, x) :: r => json_wfb x && all r
            end) fs
  end.

Definition json_wf (v : json) : Prop := json_wfb v = true.

Class PlatformLaws (P : Platform) : Prop := {
  parse_stringify : forall v, json_wf v -> JSON_parse (JSON_stringify v) = Some v;
  utf8_roundtrip : forall s, toUtf8String (toUtf8Bytes s) = Some s;
  (** The text of a value has at least one character, hence one byte. *)
  encoded_nonempty : forall v, toUtf8Bytes (JSON_stringify v) <> []
}.

(** ** The state of the component and of its collaborators *)

(** The interface [MassSpecData] (lines 8-16).  The fields hold what the
    decoded JSON held, whatever its type. *)
Module MassSpecData.
Record t : Type := mk {
  id : json;
  encryptedData : jsval;
  timestamp : jsval;
  owner : jsval;
  sampleType : jsval;
  status : json;
  fheResult : jsval
}.
End MassSpecData.

Inductive TxState : Type := TxPending | TxSuccess | TxError.

Record TransactionStatus : Type := mkTx {
  tx_visible : bool;
  tx_status : TxState;
  tx_message : string
}.

Record NewData : Type := mkNewData {
  nd_sampleType : string;
  nd_description : string;
  nd_massSpecData : string
}.

(** The [useState] cells the three operations read or write; [provider] is
    kept as the test [provider !== null]. *)
Record AppState : Type := mkApp {
  account : string;
  provider : bool;
  loading : bool;
  dataList : list MassSpecData.t;
  isRefreshing : bool;
  uploading : bool;
  transactionStatus : TransactionStatus;
  newData : NewData
}.

Inductive call : Type :=
| IsAvailable
| GetData (key : string)
| SetData (key : string) (value : list byte).

(** Modelled from the spec: the Key-Value Ledger behind [./contract]
    (section 6): [getData] returns the bytes stored under a key, empty bytes
    when the key is absent, [setData] overwrites one key, each call may fail
    with a transport error and a failed call changes nothing.  [calls] records
    every call issued, [faults] says which of the coming calls fail (and with
    which message), [readOnlyContract] and [signerContract] whether
    [getContractReadOnly] and [getContractWithSigner] return a contract. *)
Record Env : Type := mkEnv {
  ledger : gmap string (list byte);
  calls : list call;
  faults : list (option string);
  readOnlyContract : bool;
  signerContract : bool;
  available : bool;
  console : list string;
  alerts : list string
}.

Record World : Type := mkWorld {
  app : AppState;
  env : Env
}.

Definition with_app (f : AppState -> AppState) (w : World) : World :=
  {| app := f (app w); env := env w |}.

Definition with_env (f : Env -> Env) (w : World) : World :=
  {| app := app w; env := f (env w) |}.

Definition app_setLoading (b : bool) (a : AppState) : AppState :=
  {| account := account a; provider := provider a; loading := b;
     dataList := dataList a; isRefreshing := isRefreshing a;
     uploading := uploading a; transactionStatus := transactionStatus a;
     newData := newData a |}.

Definition app_setDataList (l : list MassSpecData.t) (a : AppState) : AppState :=
  {| account := account a; provider := provider a; loading := loading a;
     dataList := l; isRefreshing := isRefreshing a;
     uploading := uploading a; transactionStatus := transactionStatus a;
     newData := newData a |}.

Definition app_setIsRefreshing (b : bool) (a : AppState) : AppState :=
  {| account := account a; provider := provider a; loading := loading a;
     dataList := dataList a; isRefreshing := b;
     uploading := uploading a; transactionStatus := transactionStatus a;
     newData := newData a |}.

Definition app_setUploading (b : bool) (a : AppState) : AppState :=
  {| account := account a; provider := provider a; loading := loading a;
     dataList := dataList a; isRefreshing := isRefreshing a;
     uploading := b; transactionStatus := transactionStatus a;
     newData := newData a |}.

Definition app_setTransactionStatus (t : TransactionStatus) (a : AppState)
  : AppState :=
  {| account := account a; provider := provider a; loading := loading a;
     dataList := dataList a; isRefreshing := isRefreshing a;
     uploading := uploading a; transactionStatus := t;
     newData := newData a |}.

(** [setAccount], which the wallet callbacks call. *)
Definition app_setAccount (acct : string) (a : AppState) : AppState :=
  {| account := acct; provider := provider a; loading := loading a;
     dataList := dataList a; isRefreshing := isRefreshing a;
     uploading := uploading a; transactionStatus := transactionStatus a;
     newData := newData a |}.

(** A call is issued: it is recorded and takes the next entry of [faults]. *)
Definition env_issue (c : call) (e : Env) : Env :=
  {| ledger := ledger e; calls := calls e ++ [c]; faults := tail (faults e);
     readOnlyContract := readOnlyContract e; signerContract := signerContract e;
     available := available e; console := console e; alerts := alerts e |}.

Definition env_store (key : string) (value : list byte) (e : Env) : Env :=
  {| ledger := <[key := value]> (ledger e); calls := calls e; faults := faults e;
     readOnlyContract := readOnlyContract e; signerContract := signerContract e;
     available := available e; console := console e; alerts := alerts e |}.

Definition env_console (msg : string) (e : Env) : Env :=
  {| ledger := ledger e; calls := calls e; faults := faults e;
     readOnlyContract := readOnlyContract e; signerContract := signerContract e;
     available := available e; console := console e ++ [msg]; alerts := alerts e |}.

Definition env_alert (msg : string) (e : Env) : Env :=
  {| ledger := ledger e; calls := calls e; faults := faults e;
     readOnlyContract := readOnlyContract e; signerContract := signerContract e;
     available := available e; console := console e; alerts := alerts e ++ [msg] |}.

(** The fault, if any, of the next call. *)
Definition next_fault (e : Env) : option string :=
  match faults e with
  | Some msg :: _ => Some msg
  | _ => None
  end.

(** ** The monad of [async] functions *)

Definition M (A : Type) : Type := World -> Result A * World.

#[export] Instance Result_ret : MRet Result := fun _ a => Ok a.
#[export] Instance Result_bind : MBind Result := fun _ _ f r =>
  match r with
  | Ok a => f a
  | Throw e => Throw e
  end.

#[export] Instance M_ret : MRet M := fun _ a w => (Ok a, w).
#[export] Instance M_bind : MBind M := fun _ _ f m w =>
  match m w with
  | (Ok a, w') => f a w'
  | (Throw e, w') => (Throw e, w')
  end.

Definition throw {A : Type} (e : exn) : M A := fun w => (Throw e, w).

Definition liftR {A : Type} (r : Result A) : M A := fun w => (r, w).

Definition gets {A : Type} (f : World -> A) : M A := fun w => (Ok (f w), w).

Definition modify (f : World -> World) : M unit := fun w => (Ok tt, f w).

(** [try { body } catch (e) { handler e }]. *)
Definition try_catch {A : Type} (body : M A) (handler : exn -> M A) : M A :=
  fun w =>
    match body w with
    | (Ok a, w') => (Ok a, w')
    | (Throw e, w') => handler e w'
    end.

(** [try { body } finally { fin }]. *)
Definition finally {A : Type} (body : M A) (fin : M unit) : M A :=
  fun w =>
    match body w with
    | (r, w') =>
        match fin w' with
        | (Ok _, w'') => (r, w'')
        | (Throw e, w'') => (Throw e, w'')
        end
    end.

(** A [for ... of] loop that threads the local variable [acc]. *)
Fixpoint for_of {A B : Type} (body : B -> A -> M B) (acc : B) (l : list A) : M B :=
  match l with
  | [] => mret acc
  | x :: r => acc' ← body acc x; for_of body acc' r
  end.

Definition setLoading (b : bool) : M unit := modify (with_app (app_setLoading b)).
Definition setDataList (l : list MassSpecData.t) : M unit :=
  modify (with_app (app_setDataList l)).
Definition setIsRefreshing (b : bool) : M unit :=
  modify (with_app (app_setIsRefreshing b)).
Definition setUploading (b : bool) : M unit :=
  modify (with_app (app_setUploading b)).
Definition setTransactionStatus (t : TransactionStatus) : M unit :=
  modify (with_app (app_setTransactionStatus t)).
Definition consoleError (msg : string) : M unit :=
  modify (with_env (env_console msg)).
Definition alert (msg : string) : M unit :=
  modify (with_env (env_alert msg)).

(** Modelled from the spec: [getContractReadOnly] and [getContractWithSigner]
    of [./contract], kept as the test of their result against [null]. *)
Definition getContractReadOnly : M bool := gets (fun w => readOnlyContract (env w)).
Definition getContractWithSigner : M bool := gets (fun w => signerContract (env w)).

(** Modelled from the spec: [contract.isAvailable()], a call that is rejected
    or returns the availability of the ledger. *)
Definition contract_isAvailable : M bool := fun w =>
  let w' := with_env (env_issue IsAvailable) w in
  match next_fault (env w) with
  | Some msg => (Throw (TransportError msg), w')
  | None => (Ok (available (env w)), w')
  end.

(** Modelled from the spec: [contract.getData(key)], the [get] of section 6:
    the bytes stored under the key, empty bytes if absent. *)
Definition contract_getData (key : string) : M (list byte) := fun w =>
  let w' := with_env (env_issue (GetData key)) w in
  match next_fault (env w) with
  | Some msg => (Throw (TransportError msg), w')
  | None => (Ok (default [] (ledger (env w) !! key)), w')
  end.

(** Modelled from the spec: [contract.setData(key, value)], the [set] of
    section 6: a rejected call stores nothing. *)
Definition contract_setData (key : string) (value : list byte) : M unit := fun w =>
  let w' := with_env (env_issue (SetData key value)) w in
  match next_fault (env w) with
  | Some msg => (Throw (TransportError msg), w')
  | None => (Ok tt, with_env (env_store key value) w')
  end.

(** ** The component *)

Section App.
Context {P : Platform}.

(** *** Statistics and bar chart (lines 40-43 and 303-337) *)

Definition has_status (s : string) (d : MassSpecData.t) : bool :=
  strict_eq_str (MassSpecData.status d) s.

Definition analyzedCount (dataList : list MassSpecData.t) : nat :=
  length (List.filter (has_status "analyzed") dataList).

Definition pendingCount (dataList : list MassSpecData.t) : nat :=
  length (List.filter (has_status "pending") dataList).

Definition errorCount (dataList : list MassSpecData.t) : nat :=
  length (List.filter (has_status "error") dataList).



(** *** The owner test and the Analyze button (lines 299-301 and 509-516) *)

(** [account.toLowerCase() === address.toLowerCase()]: calling
    [toLowerCase] on anything but a string throws. *)
Definition isOwner (account : string) (address : jsval) : Result bool :=
  match address with
  | Some (JStr a) => Ok (String.eqb (toLowerCase account) (toLowerCase a))
  | _ => Throw TypeError
  end.

(** [isOwner(data.owner) && data.status === "pending"], the condition under
    which a row renders its Analyze button. *)
Definition showsAnalyze (account : string) (data : MassSpecData.t) : Result bool :=
  o ← isOwner account (MassSpecData.owner data);
  mret (o && has_status "pending" data).

(** The argument of the call [analyzeData(data.id)] that a row offers, if the
    row renders the button. *)
Definition analyzeButton (account : string) (data : MassSpecData.t)
  : Result (option json) :=
  showsAnalyze account data ≫= fun b : bool =>
  mret (if b then Some (MassSpecData.id data) else None).

(** *** Listing (lines 81-139) *)

(** [v || d]. *)
Definition or_else (v : jsval) (d : json) : json :=
  match v with
  | Some x => if truthy v then x else d
  | None => d
  end.

(** [JSON.parse(ethers.toUtf8String(bytes))]. *)
Definition parseBytes (bytes : list byte) : Result json :=
  match toUtf8String bytes with
  | None => Throw Utf8Error
  | Some s =>
      match JSON_parse s with
      | None => Throw SyntaxError
      | Some v => Ok v
      end
  end.

(** Lines 112-121: the record pushed for [key]. *)
Definition decodeRecord (key : json) (dataBytes : list byte)
  : Result MassSpecData.t :=
  data ← parseBytes dataBytes;
  d ← get_prop data "data";
  t ← get_prop data "timestamp";
  o ← get_prop data "owner";
  s ← get_prop data "sampleType";
  st ← get_prop data "status";
  f ← get_prop data "fheResult";
  mret {| MassSpecData.id := key;
          MassSpecData.encryptedData := d;
          MassSpecData.timestamp := t;
          MassSpecData.owner := o;
          MassSpecData.sampleType := s;
          MassSpecData.status := or_else st (JStr "pending");
          MassSpecData.fheResult := f |}.

(** Lines 108-128: the body of the loop over the keys; [lst] is the local
    array [list]. *)
Definition loadOne (lst : list MassSpecData.t) (key : json)
  : M (list MassSpecData.t) :=
  try_catch
    (dataBytes ← contract_getData ("massspec_" +:+ ToString key);
     if (0 <? length dataBytes)%nat then
       try_catch
         (entry ← liftR (decodeRecord key dataBytes);
          mret (lst ++ [entry]))
         (fun _ =>
            consoleError ("Error parsing data for " +:+ ToString key +:+ ":");;
            mret lst)
     else mret lst)
    (fun _ =>
       consoleError ("Error loading data " +:+ ToString key +:+ ":");;
       mret lst).

(** [ToNumber], the coercion of the operands of [-]; [None] is [NaN].  An
    array is first turned into a string. *)
Definition ToNumber (v : jsval) : option Z :=
  match v with
  | None => None
  | Some JNull => Some 0
  | Some (JBool b) => Some (if b then 1 else 0)
  | Some (JNum n) => Some n
  | Some (JStr s) => StringToNumber s
  | Some (JArr l) => StringToNumber (ToString (JArr l))
  | Some (JObj _) => None
  end.

(** [(a, b) => b.timestamp - a.timestamp]; a difference that is [NaN] is read
    by [sort] as 0. *)
Definition compareFn (a b : MassSpecData.t) : Z :=
  match ToNumber (MassSpecData.timestamp b), ToNumber (MassSpecData.timestamp a) with
  | Some x, Some y => x - y
  | _, _ => 0
  end.

(** [Array.prototype.sort] is stable, and every stable sort returns the same
    array when the comparator is consistent, as this one is when no timestamp
    is [NaN] (with an inconsistent comparator JavaScript leaves the order to
    the implementation); this one is insertion from the right. *)
Fixpoint sort_insert (x : MassSpecData.t) (l : list MassSpecData.t)
  : list MassSpecData.t :=
  match l with
  | [] => [x]
  | y :: r => if compareFn x y <=? 0 then x :: y :: r else y :: sort_insert x r
  end.

Definition sort (l : list MassSpecData.t) : list MassSpecData.t :=
  foldr sort_insert [] l.

(** Lines 94-103 and 179-188: the index, [[]] when the key is absent or its
    bytes do not parse. *)
Definition loadKeys (site : string) : M json :=
  keysBytes ← contract_getData "massspec_keys";
  if (0 <? length keysBytes)%nat then
    try_catch (liftR (parseBytes keysBytes))
              (fun _ => consoleError site;; mret (JArr []))
  else mret (JArr []).

Definition loadDataList : M unit :=
  setIsRefreshing true;;
  finally
    (try_catch
       (contract ← getContractReadOnly;
        if negb contract then mret tt else
        isAvailable ← contract_isAvailable;
        if negb isAvailable then consoleError "Contract is not available" else
        keys ← loadKeys "Error parsing data keys:";
        ks ← liftR (iterate keys);
        list ← for_of loadOne [] ks;
        setDataList (sort list))
       (fun _ => consoleError "Error loading data:"))
    (setIsRefreshing false;; setLoading false).

(** *** Create (lines 141-231) *)

(** Line 163, from the two readings [Date.now()] and
    [Math.random().toString(36).substring(2, 9)]. *)
Definition makeDataId (now : Z) (rnd : string) : string :=
  "ms-" +:+ Z_to_string now +:+ "-" +:+ rnd.

(** Line 156. *)
Definition encryptData (nd : NewData) : string :=
  "FHE-MS-"
  +:+ btoa (JSON_stringify
              (JObj [("sampleType", JStr (nd_sampleType nd));
                     ("description", JStr (nd_description nd));
                     ("massSpecData", JStr (nd_massSpecData nd))])).

(** Lines 165-171. *)
Definition massSpecData (encryptedData : string) (now : Z) (account : string)
           (sampleType : string) : json :=
  JObj [("data", JStr encryptedData);
        ("timestamp", JNum (now / 1000));
        ("owner", JStr account);
        ("sampleType", JStr sampleType);
        ("status", JStr "pending")].

Definition encodeBytes (v : json) : list byte :=
  toUtf8Bytes (JSON_stringify v).

(** Lines 155-203, the [try] block.  [now1] and [now2] are the two readings
    of the clock, [rnd] the random suffix. *)
Definition uploadBody (now1 now2 : Z) (rnd : string) : M unit :=
  nd ← gets (fun w => newData (app w));
  acct ← gets (fun w => account (app w));
  let encryptedData := encryptData nd in
  contract ← getContractWithSigner;
  if negb contract then throw (JsError "Failed to get contract with signer") else
  let dataId := makeDataId now1 rnd in
  contract_setData ("massspec_" +:+ dataId)
    (encodeBytes (massSpecData encryptedData now2 acct (nd_sampleType nd)));;
  keys ← loadKeys "Error parsing keys:";
  keys' ← liftR (push keys (JStr dataId));
  contract_setData "massspec_keys" (encodeBytes keys');;
  setTransactionStatus
    (mkTx true TxSuccess "Mass spec data encrypted and uploaded securely!");;
  loadDataList.

(** Lines 214-223. *)
Definition uploadError (e : exn) : M unit :=
  let errorMessage :=
    if includes (exn_message e) "user rejected transaction"
    then "Transaction rejected by user"
    else "Upload failed: " +:+ or_str (exn_message e) "Unknown error" in
  setTransactionStatus (mkTx true TxError errorMessage).

(** The timers that later hide the message and reset the form are not
    part of the operation. *)
Definition uploadData (now1 now2 : Z) (rnd : string) : M unit :=
  p ← gets (fun w => provider (app w));
  if negb p then alert "Please connect wallet first" else
  setUploading true;;
  setTransactionStatus
    (mkTx true TxPending "Encrypting mass spectrometry data with FHE...");;
  finally (try_catch (uploadBody now1 now2 rnd) uploadError)
          (setUploading false).

(** *** Analyze (lines 233-297)

    [dataId] is the [data.id] of a row: what the index held, which the
    template literal turns into a string. *)

Definition fheResult : string :=
  "FHE-Molecular-Profile: C6H12O6 (Glucose) @ 95% confidence".

(** Lines 264-268. *)
Definition updatedData (data : json) : json :=
  JObj (obj_set (obj_set (spread data) "status" (JStr "analyzed"))
                "fheResult" (JStr fheResult)).

(** Lines 246-281, the [try] block (the four seconds of waiting change
    nothing). *)
Definition analyzeBody (dataId : json) : M unit :=
  contract ← getContractWithSigner;
  if negb contract then throw (JsError "Failed to get contract with signer") else
  dataBytes ← contract_getData ("massspec_" +:+ ToString dataId);
  if (length dataBytes =? 0)%nat then throw (JsError "Data not found") else
  data ← liftR (parseBytes dataBytes);
  contract_setData ("massspec_" +:+ ToString dataId)
    (encodeBytes (updatedData data));;
  setTransactionStatus
    (mkTx true TxSuccess "FHE molecular analysis completed successfully!");;
  loadDataList.

(** Lines 286-291. *)
Definition analyzeError (e : exn) : M unit :=
  setTransactionStatus
    (mkTx true TxError
          ("Analysis failed: " +:+ or_str (exn_message e) "Unknown error")).

Definition analyzeData (dataId : json) : M unit :=
  p ← gets (fun w => provider (app w));
  if negb p then alert "Please connect wallet first" else
  setTransactionStatus
    (mkTx true TxPending "Processing encrypted mass spec data with FHE...");;
  try_catch (analyzeBody dataId) analyzeError.

(** A click on the Analyze button of the row of [data], when the row has
    one (line 512). *)
Definition clickAnalyze (data : MassSpecData.t) : M unit :=
  acct ← gets (fun w => account (app w));
  match analyzeButton acct data with
  | Ok (Some dataId) => analyzeData dataId
  | _ => mret tt
  end.

End App.

(** ** The rest of the component: view, form, wallet *)

Definition app_setProvider (b : bool) (a : AppState) : AppState :=
  {| account := account a; provider := b; loading := loading a;
     dataList := dataList a; isRefreshing := isRefreshing a;
     uploading := uploading a; transactionStatus := transactionStatus a;
     newData := newData a |}.

Definition app_setNewData (nd : NewData) (a : AppState) : AppState :=
  {| account := account a; provider := provider a; loading := loading a;
     dataList := dataList a; isRefreshing := isRefreshing a;
     uploading := uploading a; transactionStatus := transactionStatus a;
     newData := nd |}.

Definition setAccount (acct : string) : M unit :=
  modify (with_app (app_setAccount acct)).
Definition setProvider (b : bool) : M unit :=
  modify (with_app (app_setProvider b)).

(** [Array.prototype.filter] with a callback that may throw: the rows are
    tested in order and the first throw ends the filter. *)
Fixpoint filter_rows {A : Type} (f : A -> Result bool) (l : list A)
  : Result (list A) :=
  match l with
  | [] => Ok []
  | x :: r =>
      f x ≫= fun b : bool =>
      filter_rows f r ≫= fun rest : list A =>
      mret (if b then x :: rest else rest)
  end.



Section View.
Context {P : Platform}.

(** *** The filtered list (lines 45-51) *)

(** [v.toLowerCase()]: only a string has the method. *)
Definition lowered (v : jsval) : Result string :=
  match v with
  | Some (JStr s) => Ok (toLowerCase s)
  | _ => Throw TypeError
  end.

(** The callback of the filter.  The identifier is lowered only when the
    sample type does not match. *)
Definition matchesRow (searchQuery filterStatus : string) (item : MassSpecData.t)
  : Result bool :=
  lowered (MassSpecData.sampleType item) ≫= fun s : string =>
  (if includes s (toLowerCase searchQuery) then Ok true
   else lowered (Some (MassSpecData.id item)) ≫= fun i : string =>
        Ok (includes i (toLowerCase searchQuery))) ≫= fun matchesSearch : bool =>
  let matchesFilter :=
    String.eqb filterStatus "all"
    || strict_eq_str (MassSpecData.status item) filterStatus in
  mret (matchesSearch && matchesFilter).

Definition filteredData (searchQuery filterStatus : string)
           (dataList : list MassSpecData.t) : Result (list MassSpecData.t) :=
  filter_rows (matchesRow searchQuery filterStatus) dataList.


(** *** The effect run at mount (lines 53-55) and the Refresh button
    (lines 463-469) *)

Definition mount : M unit := finally loadDataList (setLoading false).

(** The button is disabled while a listing runs. *)
Definition clickRefresh : M unit :=
  gets (fun w => isRefreshing (app w)) ≫= fun busy : bool =>
  if busy then mret tt else loadDataList.

(** *** The upload form (lines 615-630 and 701-704) *)


(** [!data.sampleType || !data.massSpecData]: an empty string is false. *)
Definition handleSubmit (now1 now2 : Z) (rnd : string) : M unit :=
  gets (fun w => newData (app w)) ≫= fun data : NewData =>
  if String.eqb (nd_sampleType data) "" || String.eqb (nd_massSpecData data) ""
  then alert "Please fill required fields"
  else uploadData now1 now2 rnd.

(** The submit button is disabled while an upload runs. *)
Definition clickSubmit (now1 now2 : Z) (rnd : string) : M unit :=
  gets (fun w => uploading (app w)) ≫= fun busy : bool =>
  if busy then mret tt else handleSubmit now1 now2 rnd.

(** *** The wallet (lines 57-79) *)

(** [accounts[0] || ""]. *)
Definition firstAccount (accounts : list string) : string :=
  match accounts with
  | [] => ""
  | acc :: _ => or_str acc ""
  end.

(** The listener of [accountsChanged]. *)
Definition onAccountsChanged (accounts : list string) : M unit :=
  setAccount (firstAccount accounts).


Definition onDisconnect : M unit :=
  setAccount "";; setProvider false.

End View.

(** ** An executable platform

    [JSON.parse], [JSON.stringify], UTF-8 and base64 on the fragment of the
    embedding.  What lies outside of it is refused where the real platform
    accepts it: a number with a fraction or an exponent or beyond the safe
    integers, an escape or a UTF-8 sequence of a code point above 255, a
    numeric string that is no decimal integer.  The
    theorems on the component hold for every platform; this one evaluates the
    component on concrete ledgers. *)

Module Concrete.

Local Open Scope N_scope.
Local Open Scope list_scope.

Definition dquote : ascii := "034"%char.
Definition backslash : ascii := "092"%char.

Definition hex_digit (n : N) : ascii :=
  if n <? 10 then ascii_of_N (48 + n) else ascii_of_N (87 + n).

Definition hex_value (c : ascii) : option N :=
  let n := N_of_ascii c in
  if (48 <=? n) && (n <=? 57) then Some (n - 48)
  else if (97 <=? n) && (n <=? 102) then Some (n - 87)
  else if (65 <=? n) && (n <=? 70) then Some (n - 55)
  else None.

(** *** [JSON.stringify] *)

Definition escape (c : ascii) : list ascii :=
  let n := N_of_ascii c in
  if n =? 34 then [backslash; dquote]
  else if n =? 92 then [backslash; backslash]
  else if n =? 8 then [backslash; "b"%char]
  else if n =? 12 then [backslash; "f"%char]
  else if n =? 10 then [backslash; "n"%char]
  else if n =? 13 then [backslash; "r"%char]
  else if n =? 9 then [backslash; "t"%char]
  else if n <? 32 then
    [backslash; "u"%char; "0"%char; "0"%char;
     hex_digit (n / 16); hex_digit (n mod 16)]
  else [c].

Definition print_string (s : string) : list ascii :=
  dquote :: flat_map escape (list_ascii_of_string s) ++ [dquote].

Fixpoint print (v : json) : list ascii :=
  match v with
  | JNull => list_ascii_of_string "null"
  | JBool true => list_ascii_of_string "true"
  | JBool false => list_ascii_of_string "false"
  | JNum n => list_ascii_of_string (Z_to_string n)
  | JStr s => print_string s
  | JArr l =>
      "["%char
      :: (fix elements (l : list json) : list ascii :=
            match l with
            | [] => ["]"%char]
            | x :: r =>
                print x
                ++ match r with
                   | [] => ["]"%char]
                   | _ :: _ => ","%char :: elements r
                   end
            end) l
  | JObj fs =>
      "{"%char
      :: (fix members (fs : list (string * json)) : list ascii :=
            match fs with
            | [] => ["}"%char]
            | (k, x) :: r =>
                print_string k ++ ":"%char :: print x
                ++ match r with
                   | [] => ["}"%char]
                   | _ :: _ => ","%char :: members r
                   end
            end) fs
  end.

Definition stringify (v : json) : string := string_of_list_ascii (print v).

(** *** [JSON.parse] *)

Definition is_ws (c : ascii) : bool :=
  let n := N_of_ascii c in
  (n =? 32) || (n =? 9) || (n =? 10) || (n =? 13).

Fixpoint skip_ws (s : list ascii) : list ascii :=
  match s with
  | [] => []
  | c :: r => if is_ws c then skip_ws r else s
  end.

Definition unescape (c : ascii) : option ascii :=
  let n := N_of_ascii c in
  if n =? 34 then Some dquote
  else if n =? 92 then Some backslash
  else if n =? 47 then Some "/"%char
  else if n =? 98 then Some "008"%char
  else if n =? 102 then Some "012"%char
  else if n =? 110 then Some "010"%char
  else if n =? 114 then Some "013"%char
  else if n =? 116 then Some "009"%char
  else None.

Definition cons_char (c : ascii) (r : option (string * list ascii))
  : option (string * list ascii) :=
  match r with
  | Some (s, rest) => Some (String c s, rest)
  | None => None
  end.

(** The characters of a string literal after its opening quote. *)
Fixpoint parse_chars (s : list ascii) : option (string * list ascii) :=
  match s with
  | [] => None
  | c :: r =>
      let n := N_of_ascii c in
      if n =? 34 then Some (EmptyString, r)
      else if n =? 92 then
        match r with
        | [] => None
        | e :: r' =>
            if N_of_ascii e =? 117 then
              match r' with
              | h1 :: h2 :: h3 :: h4 :: r'' =>
                  match hex_value h1, hex_value h2, hex_value h3, hex_value h4 with
                  | Some a, Some b, Some c', Some d =>
                      let code := ((a * 16 + b) * 16 + c') * 16 + d in
                      if code <? 256
                      then cons_char (ascii_of_N code) (parse_chars r'')
                      else None
                  | _, _, _, _ => None
                  end
              | _ => None
              end
            else
              match unescape e with
              | Some c' => cons_char c' (parse_chars r')
              | None => None
              end
        end
      else if n <? 32 then None
      else cons_char c (parse_chars r)
  end.

Definition is_num_char (c : ascii) : bool :=
  let n := N_of_ascii c in
  (n =? 45) || ((48 <=? n) && (n <=? 57)).

Fixpoint span_num (s : list ascii) : list ascii * list ascii :=
  match s with
  | [] => ([], [])
  | c :: r =>
      if is_num_char c then
        let '(tok, rest) := span_num r in (c :: tok, rest)
      else ([], s)
  end.

(** The character after a number says whether the number goes on with a
    fraction or an exponent. *)
Definition continues_number (rest : list ascii) : bool :=
  match rest with
  | [] => false
  | c :: _ =>
      let n := N_of_ascii c in
      (n =? 46) || (n =? 101) || (n =? 69)
  end.

Definition parse_number (s : list ascii) : option (json * list ascii) :=
  let '(tok, rest) := span_num s in
  let t := string_of_list_ascii tok in
  if continues_number rest then None
  else if String.eqb t "-0" then Some (JNum 0, rest)
  else
    match NilZero.int_of_string t with
    | Some i =>
        let z := Z.of_int i in
        if String.eqb (Z_to_string z) t && safe_integer z
        then Some (JNum z, rest)
        else None
    | None => None
    end.

Fixpoint expect (word : list ascii) (s : list ascii) : option (list ascii) :=
  match word, s with
  | [], _ => Some s
  | a :: word', b :: s' => if Ascii.eqb a b then expect word' s' else None
  | _ :: _, [] => None
  end.

Definition keyword (word : string) (v : json) (s : list ascii)
  : option (json * list ascii) :=
  match expect (list_ascii_of_string word) s with
  | Some rest => Some (v, rest)
  | None => None
  end.

Fixpoint parse_value (fuel : nat) (s : list ascii) {struct fuel}
  : option (json * list ascii) :=
  match fuel with
  | O => None
  | S fuel' =>
      match skip_ws s with
      | [] => None
      | c :: r =>
          let n := N_of_ascii c in
          if n =? 110 then keyword "null" JNull (c :: r)
          else if n =? 116 then keyword "true" (JBool true) (c :: r)
          else if n =? 102 then keyword "false" (JBool false) (c :: r)
          else if n =? 34 then
            match parse_chars r with
            | Some (str, rest) => Some (JStr str, rest)
            | None => None
            end
          else if n =? 91 then
            match skip_ws r with
            | c' :: r' =>
                if N_of_ascii c' =? 93 then Some (JArr [], r')
                else
                  match parse_elements fuel' r with
                  | Some (l, rest) => Some (JArr l, rest)
                  | None => None
                  end
            | [] => None
            end
          else if n =? 123 then
            match skip_ws r with
            | c' :: r' =>
                if N_of_ascii c' =? 125 then Some (JObj [], r')
                else
                  match parse_members fuel' r with
                  | Some (ms, rest) =>
                      Some (JObj (fold_left (fun fs m => obj_set fs (fst m) (snd m))
                                            ms []), rest)
                  | None => None
                  end
            | [] => None
            end
          else parse_number (c :: r)
      end
  end

with parse_elements (fuel : nat) (s : list ascii) {struct fuel}
  : option (list json * list ascii) :=
  match fuel with
  | O => None
  | S fuel' =>
      match parse_value fuel' s with
      | Some (v, r) =>
          match skip_ws r with
          | c :: r' =>
              if N_of_ascii c =? 44 then
                match parse_elements fuel' r' with
                | Some (vs, rest) => Some (v :: vs, rest)
                | None => None
                end
              else if N_of_ascii c =? 93 then Some ([v], r')
              else None
          | [] => None
          end
      | None => None
      end
  end

with parse_members (fuel : nat) (s : list ascii) {struct fuel}
  : option (list (string * json) * list ascii) :=
  match fuel with
  | O => None
  | S fuel' =>
      match skip_ws s with
      | q :: r0 =>
          if N_of_ascii q =? 34 then
            match parse_chars r0 with
            | Some (k, r1) =>
                match skip_ws r1 with
                | colon :: r2 =>
                    if N_of_ascii colon =? 58 then
                      match parse_value fuel' r2 with
                      | Some (v, r3) =>
                          match skip_ws r3 with
                          | c :: r4 =>
                              if N_of_ascii c =? 44 then
                                match parse_members fuel' r4 with
                                | Some (ms, rest) => Some ((k, v) :: ms, rest)
                                | None => None
                                end
                              else if N_of_ascii c =? 125 then Some ([(k, v)], r4)
                              else None
                          | [] => None
                          end
                      | None => None
                      end
                    else None
                | [] => None
                end
            | None => None
            end
          else None
      | [] => None
      end
  end.

Definition parse (s : string) : option json :=
  let cs := list_ascii_of_string s in
  match parse_value (2 * length cs + 2) cs with
  | Some (v, rest) =>
      match skip_ws rest with
      | [] => Some v
      | _ :: _ => None
      end
  | None => None
  end.

(** The rest of the input after a value: nothing that goes on with a number. *)
Definition delimits (rest : list ascii) : bool :=
  match rest with
  | [] => true
  | c :: _ => negb (is_num_char c) && negb (continues_number rest)
  end.

(** The parts of [print] on the elements of an array and on the members of an
    object. *)
Definition print_elements : list json -> list ascii :=
  fix elements (l : list json) : list ascii :=
    match l with
    | [] => ["]"%char]
    | x :: r =>
        print x
        ++ match r with
           | [] => ["]"%char]
           | _ :: _ => ","%char :: elements r
           end
    end.

Definition print_members : list (string * json) -> list ascii :=
  fix members (fs : list (string * json)) : list ascii :=
    match fs with
    | [] => ["}"%char]
    | (k, x) :: r =>
        print_string k ++ ":"%char :: print x
        ++ match r with
           | [] => ["}"%char]
           | _ :: _ => ","%char :: members r
           end
    end.

(** Fuel that suffices to parse back a printed value. *)
Fixpoint cost (v : json) : nat :=
  match v with
  | JArr l =>
      S ((fix go (l : list json) : nat :=
            match l with
            | [] => O
            | x :: r => S (cost x + go r)
            end) l)
  | JObj fs =>
      S ((fix go (fs : list (string * json)) : nat :=
            match fs with
            | [] => O
            | (_, x) :: r => S (cost x + go r)
            end) fs)
  | _ => 1%nat
  end.

Definition cost_elements : list json -> nat :=
  fix go (l : list json) : nat :=
    match l with
    | [] => O
    | x :: r => S (cost x + go r)
    end.

Definition cost_members : list (string * json) -> nat :=
  fix go (fs : list (string * json)) : nat :=
    match fs with
    | [] => O
    | (_, x) :: r => S (cost x + go r)
    end.

(** The first character of a printed value is no white space and closes
    neither an array nor an object. *)
Definition opens_value (c : ascii) : Prop :=
  is_ws c = false /\ (N_of_ascii c =? 93) = false /\ (N_of_ascii c =? 125) = false.

(** The round trip for one value, with the fuel and the rest of the input
    that the parser meets inside an array or an object. *)
Definition parses_back (v : json) : Prop :=
  json_wfb v = true ->
  forall (fuel : nat) (rest : list ascii),
    (cost v <= fuel)%nat -> delimits rest = true ->
    parse_value fuel (print v ++ rest) = Some (v, rest).

(** *** UTF-8 of the code points below 256 *)

Definition utf8_encode (c : ascii) : list byte :=
  let n := N_of_ascii c in
  if n <? 128 then [byte_of_ascii c]
  else [byte_of_ascii (ascii_of_N (192 + n / 64));
        byte_of_ascii (ascii_of_N (128 + n mod 64))].

Definition utf8_bytes (s : string) : list byte :=
  flat_map utf8_encode (list_ascii_of_string s).

Definition cons_opt (c : ascii) (r : option string) : option string :=
  match r with
  | Some s => Some (String c s)
  | None => None
  end.

Fixpoint utf8_decode (bs : list byte) : option string :=
  match bs with
  | [] => Some EmptyString
  | b :: r =>
      let n := Byte.to_N b in
      if n <? 128 then cons_opt (ascii_of_byte b) (utf8_decode r)
      else if (n =? 194) || (n =? 195) then
        match r with
        | b2 :: r' =>
            let m := Byte.to_N b2 in
            if (128 <=? m) && (m <? 192)
            then cons_opt (ascii_of_N ((n - 192) * 64 + (m - 128))) (utf8_decode r')
            else None
        | [] => None
        end
      else None
  end.

(** *** [btoa] *)

Definition b64_char (n : N) : ascii :=
  if n <? 26 then ascii_of_N (65 + n)
  else if n <? 52 then ascii_of_N (71 + n)
  else if n <? 62 then ascii_of_N (n - 4)
  else if n =? 62 then "+"%char
  else "/"%char.

Fixpoint b64 (s : list ascii) : list ascii :=
  match s with
  | [] => []
  | [a] =>
      let n := N_of_ascii a * 65536 in
      [b64_char (n / 262144); b64_char (n / 4096 mod 64); "="%char; "="%char]
  | [a; b] =>
      let n := N_of_ascii a * 65536 + N_of_ascii b * 256 in
      [b64_char (n / 262144); b64_char (n / 4096 mod 64);
       b64_char (n / 64 mod 64); "="%char]
  | a :: b :: c :: r =>
      let n := N_of_ascii a * 65536 + N_of_ascii b * 256 + N_of_ascii c in
      [b64_char (n / 262144); b64_char (n / 4096 mod 64);
       b64_char (n / 64 mod 64); b64_char (n mod 64)] ++ b64 r
  end.

Definition base64 (s : string) : string :=
  string_of_list_ascii (b64 (list_ascii_of_string s)).

(** *** [Number] on strings *)

Definition is_blank (c : ascii) : bool :=
  let n := N_of_ascii c in
  (n =? 32) || ((9 <=? n) && (n <=? 13)) || (n =? 160).

Fixpoint skip_blank (s : list ascii) : list ascii :=
  match s with
  | [] => []
  | c :: r => if is_blank c then skip_blank r else s
  end.

Definition trim (s : list ascii) : list ascii :=
  rev (skip_blank (rev (skip_blank s))).

Definition digits_value (ds : list ascii) : option Z :=
  match ds with
  | [] => None
  | _ :: _ =>
      match NilEmpty.uint_of_string (string_of_list_ascii ds) with
      | Some u => Some (Z.of_uint u)
      | None => None
      end
  end.

(** Decimal integers with a sign and blanks around them; the empty string is
    0. *)
Definition string_to_number (s : string) : option Z :=
  match trim (list_ascii_of_string s) with
  | [] => Some 0%Z
  | c :: r =>
      if N_of_ascii c =? 45 then option_map Z.opp (digits_value r)
      else if N_of_ascii c =? 43 then digits_value r
      else digits_value (c :: r)
  end.

#[export] Instance platform : Platform := {|
  JSON_parse := parse;
  JSON_stringify := stringify;
  toUtf8Bytes := utf8_bytes;
  toUtf8String := utf8_decode;
  btoa := base64;
  StringToNumber := string_to_number
|}.

End Concrete.

(** ** Concrete worlds *)

Module Examples.
Import Concrete.

Definition app_of (acct : string) : AppState :=
  {| account := acct; provider := true; loading := false; dataList := [];
     isRefreshing := false; uploading := false;
     transactionStatus := mkTx false TxPending "";
     newData := mkNewData "Protein" "run 7" "1,2,3" |}.

Definition env_of (entries : list (string * list byte)) : Env :=
  {| ledger := list_to_map entries; calls := []; faults := [];
     readOnlyContract := true; signerContract := true; available := true;
     console := []; alerts := [] |}.

Definition world_of (acct : string) (entries : list (string * list byte))
  : World :=
  {| app := app_of acct; env := env_of entries |}.

(** The object stored for a record of the given owner and status. *)
Definition record (owner status : string) (t : Z) : json :=
  JObj [("data", JStr "FHE-MS-e30="); ("timestamp", JNum t);
        ("owner", JStr owner); ("sampleType", JStr "Protein");
        ("status", JStr status)].

Definition index (ids : list string) : json := JArr (List.map JStr ids).

(** One pending record [a] owned by [0xAbC], listed in the index. *)
Definition ledger_pending : list (string * list byte) :=
  [("massspec_keys", encodeBytes (index ["a"]));
   ("massspec_a", encodeBytes (record "0xAbC" "pending" 1700000000))].

(** The same record in status [error]. *)
Definition ledger_error : list (string * list byte) :=
  [("massspec_keys", encodeBytes (index ["a"]));
   ("massspec_a", encodeBytes (record "0xAbC" "error" 1700000000))].

(** A record whose bytes are not JSON. *)
Definition ledger_garbled : list (string * list byte) :=
  [("massspec_keys", encodeBytes (index ["a"]));
   ("massspec_a", utf8_bytes "oops")].

(** Two records, the second of which is not JSON, and a third key with no
    record at all. *)
Definition ledger_mixed : list (string * list byte) :=
  [("massspec_keys", encodeBytes (index ["a"; "b"; "c"; "d"]));
   ("massspec_a", encodeBytes (record "0xAbC" "pending" 1700000000));
   ("massspec_b", utf8_bytes "oops");
   ("massspec_d", encodeBytes (record "0xdef" "analyzed" 1700000500))].



Definition row (owner status : string) : MassSpecData.t :=
  {| MassSpecData.id := JStr "a";
     MassSpecData.encryptedData := Some (JStr "FHE-MS-e30=");
     MassSpecData.timestamp := Some (JNum 1700000000);
     MassSpecData.owner := Some (JStr owner);
     MassSpecData.sampleType := Some (JStr "Protein");
     MassSpecData.status := JStr status;
     MassSpecData.fheResult := None |}.

(** The world [w] whose next calls meet the faults [fs]. *)
Definition failing (fs : list (option string)) (w : World) : World :=
  with_env (fun e =>
    {| ledger := ledger e; calls := calls e; faults := fs;
       readOnlyContract := readOnlyContract e;
       signerContract := signerContract e; available := available e;
       console := console e; alerts := alerts e |}) w.

(** The world [w] in which no read-only contract can be built. *)
Definition without_reader (w : World) : World :=
  with_env (fun e =>
    {| ledger := ledger e; calls := calls e; faults := faults e;
       readOnlyContract := false;
       signerContract := signerContract e; available := available e;
       console := console e; alerts := alerts e |}) w.

(** The world [w] whose ledger answers that it is not available. *)
Definition unavailable (w : World) : World :=
  with_env (fun e =>
    {| ledger := ledger e; calls := calls e; faults := faults e;
       readOnlyContract := readOnlyContract e;
       signerContract := signerContract e; available := false;
       console := console e; alerts := alerts e |}) w.

(** The world [w] that shows the rows [l]. *)
Definition showing (l : list MassSpecData.t) (w : World) : World :=
  with_app (app_setDataList l) w.

(** An index that is the JSON object [{}], beside the record [a]. *)
Definition ledger_object_index : list (string * list byte) :=
  [("massspec_keys", encodeBytes (JObj []));
   ("massspec_a", encodeBytes (record "0xAbC" "pending" 1700000000))].

(** An index whose bytes are not JSON, beside the record [a]. *)
Definition ledger_garbled_index : list (string * list byte) :=
  [("massspec_keys", utf8_bytes "[oops");
   ("massspec_a", encodeBytes (record "0xAbC" "pending" 1700000000))].


(** The row [i] of the given sample type and status. *)
Definition sample (i sampleType status : string) : MassSpecData.t :=
  {| MassSpecData.id := JStr i;
     MassSpecData.encryptedData := Some (JStr "FHE-MS-e30=");
     MassSpecData.timestamp := Some (JNum 1700000000);
     MassSpecData.owner := Some (JStr "0xAbC");
     MassSpecData.sampleType := Some (JStr sampleType);
     MassSpecData.status := JStr status;
     MassSpecData.fheResult := None |}.

(** The world [w] with no wallet connected. *)
Definition disconnected (w : World) : World :=
  with_app (app_setProvider false) (with_app (app_setAccount "") w).

(** The world [w] in which no contract with a signer can be built. *)
Definition without_signer (w : World) : World :=
  with_env (fun e =>
    {| ledger := ledger e; calls := calls e; faults := faults e;
       readOnlyContract := readOnlyContract e;
       signerContract := false; available := available e;
       console := console e; alerts := alerts e |}) w.

(** The world [w] with the form as typed. *)
Definition typed (sampleType description massSpecData : string) (w : World)
  : World :=
  with_app (app_setNewData (mkNewData sampleType description massSpecData)) w.


End Examples.

(** ** Vocabulary of the statements *)

(** A call that does not write. *)
Definition is_read (c : call) : Prop :=
  match c with
  | SetData _ _ => False
  | _ => True
  end.

(** A computation that issues reads only. *)
Definition reads_only {A : Type} (m : M A) : Prop :=
  forall w r w', m w = (r, w') ->
    exists cs, calls (env w') = calls (env w) ++ cs /\ Forall is_read cs.

(** A computation that takes its faults from the front of [faults]. *)
Definition consumes {A : Type} (m : M A) : Prop :=
  forall w r w', m w = (r, w') ->
    exists n, faults (env w') = drop n (faults (env w)).

(** A computation that leaves the observation [f] of the world as it is. *)
Definition preserves {A X : Type} (f : World -> X) (m : M A) : Prop :=
  forall w r w', m w = (r, w') -> f w' = f w.

(** A computation that does the same in the world changed by [g] as in the
    world itself: it neither reads nor writes what [g] changes. *)
Definition commutes {A : Type} (g : World -> World) (m : M A) : Prop :=
  forall w, m (g w) = (fst (m w), g (snd (m w))).

(** A computation that never throws. *)
Definition total {A : Type} (m : M A) : Prop :=
  forall w, exists a w', m w = (Ok a, w').

(** The message that [analyzeData] shows first (lines 239-243). *)
Definition processing : TransactionStatus :=
  mkTx true TxPending "Processing encrypted mass spec data with FHE...".

(** The message of a failed analysis (lines 287-291). *)
Definition analysis_failed (e : exn) : TransactionStatus :=
  mkTx true TxError ("Analysis failed: " +:+ or_str (exn_message e) "Unknown error").

Definition analysis_completed : TransactionStatus :=
  mkTx true TxSuccess "FHE molecular analysis completed successfully!".

(** The key of the record of an identifier. *)
Definition record_key (dataId : json) : string := "massspec_" +:+ ToString dataId.

Definition the_ledger (w : World) : gmap string (list byte) := ledger (env w).
Definition the_status (w : World) : TransactionStatus := transactionStatus (app w).

Section Vocabulary.
Context {P : Platform}.

(** What the body of the loop of [loadDataList] pushes for a key whose read is
    not rejected: the decoded record, if the key has bytes and they decode. *)
Definition fetched (led : gmap string (list byte)) (key : json)
  : option MassSpecData.t :=
  let dataBytes := default [] (led !! record_key key) in
  if (0 <? length dataBytes)%nat then
    match decodeRecord key dataBytes with
    | Ok entry => Some entry
    | Throw _ => None
    end
  else None.

(** The records that the loop collects over [keys], in the order of the keys,
    when [fs] tells which of the reads are rejected. *)
Fixpoint collected (led : gmap string (list byte)) (fs : list (option string))
         (keys : list json) : list MassSpecData.t :=
  match keys with
  | [] => []
  | key :: r =>
      match fs with
      | Some _ :: _ => []
      | _ => option_list (fetched led key)
      end ++ collected led (tail fs) r
  end.

(** The index that a ledger holds: the parsed bytes of the key
    [massspec_keys], the empty array when the key is absent or does not
    parse. *)
Definition indexed (led : gmap string (list byte)) : json :=
  let keysBytes := default [] (led !! "massspec_keys") in
  if (0 <? length keysBytes)%nat then
    match parseBytes keysBytes with
    | Ok keys => keys
    | Throw _ => JArr []
    end
  else JArr [].

(** The timestamp of a record is a number, or a value that [-] turns into a
    number. *)
Definition numeric (d : MassSpecData.t) : bool :=
  match ToNumber (MassSpecData.timestamp d) with
  | Some _ => true
  | None => false
  end.


End Vocabulary.

(** The next [n] calls are not rejected. *)
Definition calls_succeed (n : nat) (e : Env) : bool :=
  forallb (fun f => match f with Some _ => false | None => true end)
          (take n (faults e)).

(** The object stored for a record: the layout that [uploadData] writes
    (lines 165-171) and [analyzeData] extends (lines 264-268), which is the
    mapping of lines 114-120 read backwards. *)
Definition field (name : string) (v : jsval) : list (string * json) :=
  match v with
  | Some x => [(name, x)]
  | None => []
  end.

Definition recordObject (r : MassSpecData.t) : json :=
  JObj (field "data" (MassSpecData.encryptedData r)
        ++ field "timestamp" (MassSpecData.timestamp r)
        ++ field "owner" (MassSpecData.owner r)
        ++ field "sampleType" (MassSpecData.sampleType r)
        ++ [("status", MassSpecData.status r)]
        ++ field "fheResult" (MassSpecData.fheResult r)).

Definition is_string (v : jsval) : bool :=
  match v with
  | Some (JStr _) => true
  | _ => false
  end.

(** A record as the interface [MassSpecData] types it: strings, a timestamp
    that is a safe integer, one of the three statuses, a result that is a
    string when there is one. *)
Definition valid_record (r : MassSpecData.t) : bool :=
  is_string (MassSpecData.encryptedData r)
  && match MassSpecData.timestamp r with
     | Some (JNum t) => safe_integer t
     | _ => false
     end
  && is_string (MassSpecData.owner r)
  && is_string (MassSpecData.sampleType r)
  && (strict_eq_str (MassSpecData.status r) "pending"
      || strict_eq_str (MassSpecData.status r) "analyzed"
      || strict_eq_str (MassSpecData.status r) "error")
  && match MassSpecData.fheResult r with
     | None => true
     | Some (JStr _) => true
     | Some _ => false
     end.

(** The record that [uploadData] creates. *)
Definition pendingRecord (key : json) (encryptedData : string) (now : Z)
           (account sampleType : string) : MassSpecData.t :=
  {| MassSpecData.id := key;
     MassSpecData.encryptedData := Some (JStr encryptedData);
     MassSpecData.timestamp := Some (JNum (now / 1000));
     MassSpecData.owner := Some (JStr account);
     MassSpecData.sampleType := Some (JStr sampleType);
     MassSpecData.status := JStr "pending";
     MassSpecData.fheResult := None |}.

(** The record that [analyzeData] makes of a record. *)
Definition analyzedRecord (r : MassSpecData.t) : MassSpecData.t :=
  {| MassSpecData.id := MassSpecData.id r;
     MassSpecData.encryptedData := MassSpecData.encryptedData r;
     MassSpecData.timestamp := MassSpecData.timestamp r;
     MassSpecData.owner := MassSpecData.owner r;
     MassSpecData.sampleType := MassSpecData.sampleType r;
     MassSpecData.status := JStr "analyzed";
     MassSpecData.fheResult := Some (JStr fheResult) |}.

(** The observation of which contracts there are. *)
Definition the_contracts (w : World) : bool * bool * bool :=
  (readOnlyContract (env w), signerContract (env w), available (env w)).



(** The part of the state of the component that a listing does not touch. *)
Definition the_session (w : World)
  : string * bool * bool * TransactionStatus * NewData :=
  (account (app w), provider (app w), uploading (app w),
   transactionStatus (app w), newData (app w)).

Section VocabularyView.
Context {P : Platform}.

(** The rows of [l] whose timestamp is the number [t], in their order. *)
Definition stamped (t : Z) (l : list MassSpecData.t) : list MassSpecData.t :=
  List.filter (fun d => match ToNumber (MassSpecData.timestamp d) with
                        | Some x => x =? t
                        | None => false
                        end) l.

(** The status of the row is one of the three that are counted. *)
Definition counted (d : MassSpecData.t) : bool :=
  has_status "analyzed" d || has_status "pending" d || has_status "error" d.

End VocabularyView.

(** The row answers the search [q] and the status filter [f]: its status is
    the one asked for, if one is, and the search occurs, whatever the case of
    the letters, in its sample type or in its identifier. *)
Definition answers (q f : string) (d : MassSpecData.t) : Prop :=
  (f = "all" \/ MassSpecData.status d = JStr f)
  /\ exists s,
       MassSpecData.sampleType d = Some (JStr s)
       /\ (includes (toLowerCase s) (toLowerCase q) = true
           \/ exists i, MassSpecData.id d = JStr i
                        /\ includes (toLowerCase i) (toLowerCase q) = true).

(** The sample type and the identifier of the row are strings. *)
Definition searchable (d : MassSpecData.t) : bool :=
  is_string (MassSpecData.sampleType d) && is_string (Some (MassSpecData.id d)).

(** The key and the bytes of the record that a create writes first. *)
Section VocabularyCreate.
Context {P : Platform}.

Definition created_key (now1 : Z) (rnd : string) : string :=
  "massspec_" +:+ makeDataId now1 rnd.


End VocabularyCreate.

(** The account, the connection and the form. *)
Definition the_user (w : World) : string * bool * NewData :=
  (account (app w), provider (app w), newData (app w)).


(** * Facts *)

(** ** The monad *)

Section Monad.

Lemma bind_run {A B} (m : M A) (f : A -> M B) (w : World) :
  (m ≫= f) w = match m w with
               | (Ok a, w') => f a w'
               | (Throw e, w') => (Throw e, w')
               end.
Proof. reflexivity. Qed.

Lemma total_modify (f : World -> World) : total (modify f).
Proof. intros w. eexists _, _. reflexivity. Qed.

Lemma total_bind {A B} (m : M A) (f : A -> M B) :
  total m -> (forall a, total (f a)) -> total (m ≫= f).
Proof.
  intros Hm Hf w. destruct (Hm w) as [a [w1 E]].
  destruct (Hf a w1) as [b [w2 E2]]. exists b, w2.
  rewrite bind_run, E. exact E2.
Qed.

Lemma total_try_catch {A} (m : M A) (h : exn -> M A) :
  (forall e, total (h e)) -> total (try_catch m h).
Proof.
  intros Hh w. unfold try_catch. destruct (m w) as [[a|e] w1].
  - eexists _, _. reflexivity.
  - apply Hh.
Qed.

Lemma total_finally {A} (m : M A) (fin : M unit) :
  total m -> total fin -> total (finally m fin).
Proof.
  intros Hm Hf w. unfold finally. destruct (Hm w) as [a [w1 E]]. rewrite E.
  destruct (Hf w1) as [u [w2 E2]]. rewrite E2. eexists _, _. reflexivity.
Qed.

(** *** Computations that preserve an observation *)

Context {X : Type} (f : World -> X).

Lemma preserves_pure {A} (m : M A) :
  (forall w, snd (m w) = w) -> preserves f m.
Proof.
  intros Hm w r w' H. specialize (Hm w). rewrite H in Hm. simpl in Hm.
  congruence.
Qed.

Lemma preserves_modify (g : World -> World) :
  (forall w, f (g w) = f w) -> preserves f (modify g).
Proof. intros Hg w r w' H. inversion H; subst. apply Hg. Qed.

Lemma preserves_bind {A B} (m : M A) (k : A -> M B) :
  preserves f m -> (forall a, preserves f (k a)) -> preserves f (m ≫= k).
Proof.
  intros Hm Hk w r w' H. rewrite bind_run in H.
  destruct (m w) as [[a|e] w1] eqn:E.
  - rewrite (Hk a _ _ _ H). exact (Hm _ _ _ E).
  - inversion H; subst. exact (Hm _ _ _ E).
Qed.

Lemma preserves_try_catch {A} (m : M A) (h : exn -> M A) :
  preserves f m -> (forall e, preserves f (h e)) -> preserves f (try_catch m h).
Proof.
  intros Hm Hh w r w' H. unfold try_catch in H.
  destruct (m w) as [[a|e] w1] eqn:E.
  - inversion H; subst. exact (Hm _ _ _ E).
  - rewrite (Hh e _ _ _ H). exact (Hm _ _ _ E).
Qed.

Lemma preserves_finally {A} (m : M A) (fin : M unit) :
  preserves f m -> preserves f fin -> preserves f (finally m fin).
Proof.
  intros Hm Hf w r w' H. unfold finally in H.
  destruct (m w) as [r1 w1] eqn:E.
  destruct (fin w1) as [[u|e] w2] eqn:E2; inversion H; subst;
    rewrite (Hf _ _ _ E2); exact (Hm _ _ _ E).
Qed.

Lemma preserves_for_of {A B} (body : B -> A -> M B) (l : list A) :
  (forall acc x, preserves f (body acc x)) ->
  forall acc, preserves f (for_of body acc l).
Proof.
  intros Hb. induction l as [|x l IH]; intros acc; simpl.
  - apply preserves_pure. reflexivity.
  - apply preserves_bind; [apply Hb|]. intros a. apply IH.
Qed.

Lemma preserves_if {A} (b : bool) (m1 m2 : M A) :
  preserves f m1 -> preserves f m2 -> preserves f (if b then m1 else m2).
Proof. destruct b; auto. Qed.

Lemma preserves_isAvailable :
  (forall w c, f (with_env (env_issue c) w) = f w) ->
  preserves f contract_isAvailable.
Proof.
  intros Hf w r w' H. unfold contract_isAvailable in H.
  destruct (next_fault (env w)); inversion H; subst; apply Hf.
Qed.

Lemma preserves_getData (key : string) :
  (forall w c, f (with_env (env_issue c) w) = f w) ->
  preserves f (contract_getData key).
Proof.
  intros Hf w r w' H. unfold contract_getData in H.
  destruct (next_fault (env w)); inversion H; subst; apply Hf.
Qed.

End Monad.

(** *** Computations that only read *)

Section Reads.

Lemma reads_only_pure {A} (m : M A) :
  (forall w, calls (env (snd (m w))) = calls (env w)) -> reads_only m.
Proof.
  intros Hm w r w' H. specialize (Hm w). rewrite H in Hm. simpl in Hm.
  exists []. rewrite app_nil_r. auto.
Qed.

Lemma reads_only_bind {A B} (m : M A) (k : A -> M B) :
  reads_only m -> (forall a, reads_only (k a)) -> reads_only (m ≫= k).
Proof.
  intros Hm Hk w r w' H. rewrite bind_run in H.
  destruct (m w) as [[a|e] w1] eqn:E.
  - destruct (Hm _ _ _ E) as [cs1 [C1 F1]].
    destruct (Hk a _ _ _ H) as [cs2 [C2 F2]].
    exists (cs1 ++ cs2).
    rewrite C2, C1, <- app_assoc. split; [reflexivity|]. apply Forall_app; auto.
  - inversion H; subst. exact (Hm _ _ _ E).
Qed.

Lemma reads_only_try_catch {A} (m : M A) (h : exn -> M A) :
  reads_only m -> (forall e, reads_only (h e)) -> reads_only (try_catch m h).
Proof.
  intros Hm Hh w r w' H. unfold try_catch in H.
  destruct (m w) as [[a|e] w1] eqn:E.
  - inversion H; subst. exact (Hm _ _ _ E).
  - destruct (Hm _ _ _ E) as [cs1 [C1 F1]].
    destruct (Hh e _ _ _ H) as [cs2 [C2 F2]].
    exists (cs1 ++ cs2).
    rewrite C2, C1, <- app_assoc. split; [reflexivity|]. apply Forall_app; auto.
Qed.

Lemma reads_only_finally {A} (m : M A) (fin : M unit) :
  reads_only m -> reads_only fin -> reads_only (finally m fin).
Proof.
  intros Hm Hf w r w' H. unfold finally in H.
  destruct (m w) as [r1 w1] eqn:E.
  destruct (Hm _ _ _ E) as [cs1 [C1 F1]].
  destruct (fin w1) as [[u|e] w2] eqn:E2; inversion H; subst;
    destruct (Hf _ _ _ E2) as [cs2 [C2 F2]];
    exists (cs1 ++ cs2); rewrite C2, C1, <- app_assoc;
    (split; [reflexivity|]); apply Forall_app; auto.
Qed.

Lemma reads_only_for_of {A B} (body : B -> A -> M B) (l : list A) :
  (forall acc x, reads_only (body acc x)) ->
  forall acc, reads_only (for_of body acc l).
Proof.
  intros Hb. induction l as [|x l IH]; intros acc; simpl.
  - apply reads_only_pure. reflexivity.
  - apply reads_only_bind; [apply Hb|]. intros a. apply IH.
Qed.

Lemma reads_only_if {A} (b : bool) (m1 m2 : M A) :
  reads_only m1 -> reads_only m2 -> reads_only (if b then m1 else m2).
Proof. destruct b; auto. Qed.

Lemma reads_only_isAvailable : reads_only contract_isAvailable.
Proof.
  intros w r w' H. unfold contract_isAvailable in H.
  destruct (next_fault (env w)); inversion H; subst; simpl;
    exists [IsAvailable]; split; auto; repeat constructor.
Qed.

Lemma reads_only_getData (key : string) : reads_only (contract_getData key).
Proof.
  intros w r w' H. unfold contract_getData in H.
  destruct (next_fault (env w)); inversion H; subst; simpl;
    exists [GetData key]; split; auto; repeat constructor.
Qed.

End Reads.

Create HintDb frame.

#[local] Hint Resolve reads_only_isAvailable reads_only_getData : frame.
#[local] Hint Extern 1 (reads_only (_ ≫= _)) =>
  apply reads_only_bind; [|intros ?] : frame.
#[local] Hint Extern 1 (reads_only (try_catch _ _)) =>
  apply reads_only_try_catch; [|intros ?] : frame.
#[local] Hint Extern 1 (reads_only (finally _ _)) =>
  apply reads_only_finally : frame.
#[local] Hint Extern 1 (reads_only (for_of _ _ _)) =>
  apply reads_only_for_of; intros ? ? : frame.
#[local] Hint Extern 1 (reads_only (if _ then _ else _)) =>
  apply reads_only_if : frame.
#[local] Hint Extern 5 (reads_only _) =>
  apply reads_only_pure; reflexivity : frame.

#[local] Hint Extern 1 (preserves _ (_ ≫= _)) =>
  apply preserves_bind; [|intros ?] : frame.
#[local] Hint Extern 1 (preserves _ (try_catch _ _)) =>
  apply preserves_try_catch; [|intros ?] : frame.
#[local] Hint Extern 1 (preserves _ (finally _ _)) =>
  apply preserves_finally : frame.
#[local] Hint Extern 1 (preserves _ (for_of _ _ _)) =>
  apply preserves_for_of; intros ? ? : frame.
#[local] Hint Extern 1 (preserves _ (if _ then _ else _)) =>
  apply preserves_if : frame.
#[local] Hint Extern 1 (preserves _ contract_isAvailable) =>
  apply preserves_isAvailable; reflexivity : frame.
#[local] Hint Extern 1 (preserves _ (contract_getData _)) =>
  apply preserves_getData; reflexivity : frame.
#[local] Hint Extern 5 (preserves _ _) =>
  apply preserves_pure; reflexivity : frame.
#[local] Hint Extern 6 (preserves _ _) =>
  apply preserves_modify; reflexivity : frame.

(** ** Listing never throws, never writes and keeps the message *)

Section Listing.
Context {P : Platform}.

Lemma reads_only_loadOne lst key : reads_only (loadOne lst key).
Proof. unfold loadOne. auto 20 with frame. Qed.

Lemma reads_only_loadKeys site : reads_only (loadKeys site).
Proof. unfold loadKeys. auto 20 with frame. Qed.

Lemma reads_only_loadDataList : reads_only loadDataList.
Proof.
  unfold loadDataList.
  pose proof reads_only_loadOne. pose proof reads_only_loadKeys.
  auto 30 with frame.
Qed.

Lemma loadDataList_ledger : preserves the_ledger loadDataList.
Proof.
  unfold loadDataList, loadKeys, loadOne, setIsRefreshing, setLoading,
    setDataList, consoleError.
  auto 40 with frame.
Qed.

Lemma loadDataList_status : preserves the_status loadDataList.
Proof.
  unfold loadDataList, loadKeys, loadOne, setIsRefreshing, setLoading,
    setDataList, consoleError.
  auto 40 with frame.
Qed.

Lemma total_loadDataList : total loadDataList.
Proof.
  unfold loadDataList. apply total_bind; [apply total_modify|intros _].
  apply total_finally.
  - apply total_try_catch. intros e. apply total_modify.
  - apply total_bind; [apply total_modify|intros _]. apply total_modify.
Qed.

Lemma loadDataList_runs (w : World) :
  exists w', loadDataList w = (Ok tt, w').
Proof. destruct (total_loadDataList w) as [[] [w' E]]. eauto. Qed.

End Listing.

(** ** Statistics and bar chart *)

Section Aggregate.



Lemma has_status_unique (s s' : string) (d : MassSpecData.t) :
  has_status s d = true -> has_status s' d = true -> s = s'.
Proof.
  unfold has_status, strict_eq_str.
  destruct (MassSpecData.status d); try discriminate.
  intros H1%String.eqb_eq H2%String.eqb_eq. congruence.
Qed.




End Aggregate.

(** ** Calls that are not rejected *)

Lemma calls_succeed_S (n : nat) (e : Env) (c : call) :
  calls_succeed (S n) e = true ->
  next_fault e = None /\ calls_succeed n (env_issue c e) = true.
Proof.
unfold calls_succeed, next_fault. simpl.
destruct (faults e) as [|[msg|] fs]; simpl; auto.
- destruct n; auto.
- discriminate.
Qed.

(** ** The analyze transition *)

Section Analyze.
Context {P : Platform}.

Lemma analyzeData_run (dataId : json) (w : World) :
  provider (app w) = true ->
  analyzeData dataId w
  = try_catch (analyzeBody dataId) analyzeError
              (with_app (app_setTransactionStatus processing) w).
Proof.
  intros Hp. unfold analyzeData. rewrite bind_run. simpl. rewrite Hp.
  reflexivity.
Qed.

(** The paths through the [try] block, one after the other. *)
Lemma analyzeBody_unfold (dataId : json) (w : World) :
  analyzeBody dataId w
  = if negb (signerContract (env w))
    then (Throw (JsError "Failed to get contract with signer"), w)
    else
      let w1 := with_env (env_issue (GetData (record_key dataId))) w in
      match next_fault (env w) with
      | Some msg => (Throw (TransportError msg), w1)
      | None =>
          let dataBytes := default [] (ledger (env w) !! record_key dataId) in
          if (length dataBytes =? 0)%nat
          then (Throw (JsError "Data not found"), w1)
          else
            match parseBytes dataBytes with
            | Throw e => (Throw e, w1)
            | Ok data =>
                let value := encodeBytes (updatedData data) in
                let w2 :=
                  with_env (env_issue (SetData (record_key dataId) value)) w1 in
                match next_fault (env w1) with
                | Some msg => (Throw (TransportError msg), w2)
                | None =>
                    loadDataList
                      (with_app (app_setTransactionStatus analysis_completed)
                         (with_env (env_store (record_key dataId) value) w2))
                end
            end
      end.
Proof.
  unfold analyzeBody, record_key. rewrite bind_run.
  unfold getContractWithSigner, gets. simpl.
  destruct (signerContract (env w)); simpl; [|reflexivity].
  rewrite bind_run. unfold contract_getData.
  destruct (next_fault (env w)) as [msg|]; [reflexivity|].
  destruct (length (default [] (ledger (env w) !! ("massspec_" +:+ ToString dataId))) =? 0)%nat;
    [reflexivity|].
  rewrite bind_run. unfold liftR.
  destruct (parseBytes _) as [data|e]; [|reflexivity].
  rewrite bind_run. unfold contract_setData. simpl.
  destruct (next_fault (env_issue _ (env w))); reflexivity.
Qed.

Lemma analyzeData_disconnected (dataId : json) (w : World) :
  provider (app w) = false ->
  analyzeData dataId w
  = (Ok tt, with_env (env_alert "Please connect wallet first") w).
Proof.
intros Hp. unfold analyzeData. rewrite bind_run. simpl. rewrite Hp.
reflexivity.
Qed.

(** C7.  For every identifier with no record stored under its key, the
    analyze operation leaves the ledger as it is and issues no [setData],
    whatever else happens; with a connected wallet, a signer and a read that
    is not rejected, it fails with the error [Data not found] as soon as it
    has read the key: the message of failure is shown and the only call
    issued is that read. *)
Theorem analyze_missing_record (dataId : json) (w : World) :
  ledger (env w) !! record_key dataId = None ->
  (ledger (env (snd (analyzeData dataId w))) = ledger (env w)
   /\ exists reads,
       calls (env (snd (analyzeData dataId w))) = calls (env w) ++ reads
       /\ Forall is_read reads)
  /\ (provider (app w) = true ->
      signerContract (env w) = true ->
      next_fault (env w) = None ->
      fst (analyzeBody dataId (with_app (app_setTransactionStatus processing) w))
        = Throw (JsError "Data not found")
      /\ fst (analyzeData dataId w) = Ok tt
      /\ transactionStatus (app (snd (analyzeData dataId w)))
         = mkTx true TxError "Analysis failed: Data not found"
      /\ calls (env (snd (analyzeData dataId w)))
         = calls (env w) ++ [GetData (record_key dataId)]).
Proof.
intros Hl. split.
- destruct (provider (app w)) eqn:Hp.
  + rewrite (analyzeData_run _ _ Hp). unfold try_catch.
    rewrite analyzeBody_unfold. simpl. rewrite Hl. simpl.
    destruct (signerContract (env w)); simpl.
    * destruct (next_fault (env w)); simpl;
        (split; [reflexivity|]);
        exists [GetData (record_key dataId)]; split; auto;
        repeat constructor.
    * split; [reflexivity|]. exists []. rewrite app_nil_r. auto.
  + rewrite (analyzeData_disconnected _ _ Hp). simpl.
    split; [reflexivity|]. exists []. rewrite app_nil_r. auto.
- intros Hp Hs Hf.
  rewrite (analyzeData_run _ _ Hp). unfold try_catch.
  rewrite analyzeBody_unfold. simpl. rewrite Hs, Hf, Hl. simpl.
  repeat split; reflexivity.
Qed.

Lemma assoc_obj_set_eq (fs : list (string * json)) (k : string) (v : json) :
  assoc k (obj_set fs k v) = Some v.
Proof.
  induction fs as [|[k' v'] fs IH]; simpl.
  - rewrite String.eqb_refl. reflexivity.
  - destruct (String.eqb_spec k k') as [->|Hk]; simpl.
    + rewrite String.eqb_refl. reflexivity.
    + destruct (String.eqb_spec k k'); [contradiction|]. exact IH.
Qed.

Lemma assoc_obj_set_ne (fs : list (string * json)) (k k' : string) (v : json) :
  k <> k' -> assoc k (obj_set fs k' v) = assoc k fs.
Proof.
  intros Hne. induction fs as [|[k0 v0] fs IH]; simpl.
  - destruct (String.eqb_spec k k'); [contradiction|reflexivity].
  - destruct (String.eqb_spec k' k0) as [->|Hk]; simpl.
    + destruct (String.eqb_spec k k0); [contradiction|reflexivity].
    + destruct (String.eqb_spec k k0); [reflexivity|exact IH].
Qed.

Lemma updatedData_status (data : json) :
  get_prop (updatedData data) "status" = Ok (Some (JStr "analyzed")).
Proof.
  unfold updatedData. simpl. f_equal.
  rewrite assoc_obj_set_ne by discriminate. apply assoc_obj_set_eq.
Qed.

(** C3, amended.  When the [try] block of the analyze operation throws,
    whatever it throws (the rejection of a call, [Data not found], bytes
    that do not parse, a missing signer), the ledger is the one before the
    call and the operation ends with the message of failure; and every
    [setData] that the operation issues stores an object whose status is
    [analyzed]: a record in status [error] is never written. *)
Theorem analyze_failure_is_surfaced (dataId : json) (w : World) :
  provider (app w) = true ->
  (forall e w1,
      analyzeBody dataId (with_app (app_setTransactionStatus processing) w)
      = (Throw e, w1) ->
      ledger (env w1) = ledger (env w)
      /\ analyzeData dataId w
         = (Ok tt, with_app (app_setTransactionStatus (analysis_failed e)) w1))
  /\ (forall key value,
         In (SetData key value) (calls (env (snd (analyzeData dataId w)))) ->
         In (SetData key value) (calls (env w))
         \/ (key = record_key dataId
             /\ exists data,
                 value = encodeBytes (updatedData data)
                 /\ get_prop (updatedData data) "status"
                    = Ok (Some (JStr "analyzed")))).
Proof.
  intros Hp. split.
  - intros e w1 Hbody. rewrite (analyzeData_run _ _ Hp). unfold try_catch.
    rewrite Hbody. split; [|reflexivity].
    rewrite analyzeBody_unfold in Hbody. simpl in Hbody.
    destruct (signerContract (env w)); simpl in Hbody;
      [|inversion Hbody; reflexivity].
    destruct (next_fault (env w)); [inversion Hbody; reflexivity|].
    destruct (length _ =? 0)%nat; [inversion Hbody; reflexivity|].
    destruct (parseBytes _) as [data|e']; [|inversion Hbody; reflexivity].
    destruct (next_fault _); [inversion Hbody; reflexivity|].
    match type of Hbody with
    | loadDataList ?w2 = _ => destruct (loadDataList_runs w2) as [w3 E]
    end.
    rewrite E in Hbody. discriminate.
  - intros key value. rewrite (analyzeData_run _ _ Hp). unfold try_catch.
    rewrite analyzeBody_unfold. simpl.
    destruct (signerContract (env w)); simpl; [|auto].
    destruct (next_fault (env w)); simpl.
    { rewrite in_app_iff. simpl. intros [H|[H|[]]]; [auto|discriminate]. }
    destruct (length _ =? 0)%nat; simpl.
    { rewrite in_app_iff. simpl. intros [H|[H|[]]]; [auto|discriminate]. }
    destruct (parseBytes _) as [data|e']; simpl.
    2:{ rewrite in_app_iff. simpl. intros [H|[H|[]]]; [auto|discriminate]. }
    assert (Hmine :
              SetData (record_key dataId) (encodeBytes (updatedData data))
              = SetData key value ->
              key = record_key dataId
              /\ exists data0, value = encodeBytes (updatedData data0)
                   /\ get_prop (updatedData data0) "status"
                      = Ok (Some (JStr "analyzed"))).
    { intros Hc. inversion Hc; subst.
      split; [reflexivity|]. exists data. split; [reflexivity|].
      apply updatedData_status. }
    destruct (next_fault _); simpl.
    { rewrite !in_app_iff. simpl.
      intros [[H|[H|[]]]|[H|[]]]; [auto|discriminate|auto]. }
    match goal with
    | |- context [loadDataList ?w2] =>
        destruct (loadDataList w2) as [r w3] eqn:E;
        destruct (reads_only_loadDataList _ _ _ E) as [cs [Hcs Hread]]
    end.
    assert (Hcalls : In (SetData key value) (calls (env w3)) ->
                     In (SetData key value) (calls (env w))
                     \/ SetData (record_key dataId) (encodeBytes (updatedData data))
                        = SetData key value).
    { rewrite Hcs. simpl. rewrite !in_app_iff. simpl.
      intros [[[H|[H|[]]]|[H|[]]]|H]; [auto|discriminate|auto|].
      rewrite List.Forall_forall in Hread. destruct (Hread _ H). }
    destruct r as [[]|e0]; simpl; intros H;
      destruct (Hcalls H) as [H'|H']; auto.
Qed.

End Analyze.

(** The key [missing-id] has no record. *)
Lemma analyze_missing_record_witness :
  let w := Examples.world_of "0xAbC" Examples.ledger_pending in
  let dataId := JStr "missing-id" in
  let w' := snd (analyzeData (P := Concrete.platform) dataId w) in
  (ledger (env w') = ledger (env w)
   /\ exists reads,
       calls (env w') = calls (env w) ++ reads /\ Forall is_read reads)
  /\ fst (analyzeBody (P := Concrete.platform) dataId
            (with_app (app_setTransactionStatus processing) w))
       = Throw (JsError "Data not found")
  /\ fst (analyzeData (P := Concrete.platform) dataId w) = Ok tt
  /\ transactionStatus (app w')
     = mkTx true TxError "Analysis failed: Data not found"
  /\ calls (env w') = calls (env w) ++ [GetData (record_key dataId)].
Proof.
destruct (analyze_missing_record
            (P := Concrete.platform) (JStr "missing-id")
            (Examples.world_of "0xAbC" Examples.ledger_pending))
  as [H1 H2]; [reflexivity|].
split; [exact H1|]. apply H2; reflexivity.
Defined.

(** The owner analyzes a record whose bytes are not JSON. *)
Lemma analyze_failure_is_surfaced_witness :
  let w := Examples.world_of "0xAbC" Examples.ledger_garbled in
  let dataId := JStr "a" in
  (forall e w1,
      analyzeBody (P := Concrete.platform) dataId
                  (with_app (app_setTransactionStatus processing) w)
      = (Throw e, w1) ->
      ledger (env w1) = ledger (env w)
      /\ analyzeData (P := Concrete.platform) dataId w
         = (Ok tt, with_app (app_setTransactionStatus (analysis_failed e)) w1))
  /\ (forall key value,
         In (SetData key value)
            (calls (env (snd (analyzeData (P := Concrete.platform) dataId w)))) ->
         In (SetData key value) (calls (env w))
         \/ (key = record_key dataId
             /\ exists data,
                 value = encodeBytes (P := Concrete.platform) (updatedData data)
                 /\ get_prop (updatedData data) "status"
                    = Ok (Some (JStr "analyzed")))).
Proof.
  apply (analyze_failure_is_surfaced
           (P := Concrete.platform) (JStr "a")
           (Examples.world_of "0xAbC" Examples.ledger_garbled)).
  reflexivity.
Defined.

(** C3, as stated, fails: the bytes of the record [a] are not JSON, the
    [try] block throws a [SyntaxError], which is no transport error, and the
    operation ends with the message of failure after one read: no [setData]
    is issued and the stored bytes are the ones before, not those of a record
    in status [error]. *)
Lemma analyze_failure_writes_nothing :
  let w := Examples.world_of "0xAbC" Examples.ledger_garbled in
  let w' := snd (analyzeData (P := Concrete.platform) (JStr "a") w) in
  fst (analyzeBody (P := Concrete.platform) (JStr "a")
         (with_app (app_setTransactionStatus processing) w))
    = Throw SyntaxError
  /\ tx_status (transactionStatus (app w')) = TxError
  /\ calls (env w') = [GetData "massspec_a"]
  /\ ledger (env w') !! "massspec_a" = Some (Concrete.utf8_bytes "oops")
  /\ ledger (env w') = ledger (env w).
Proof.
  vm_compute. repeat split.
Qed.

(** ** The Analyze button *)

(** *** Computations that do not depend on a part of the state *)

Section Commutes.
Context (g : World -> World).

Lemma commutes_bind {A B} (m : M A) (k : A -> M B) :
  commutes g m -> (forall a, commutes g (k a)) -> commutes g (m ≫= k).
Proof.
intros Hm Hk w. rewrite !bind_run, Hm.
destruct (m w) as [[a|e] w1]; simpl; [apply Hk|reflexivity].
Qed.

Lemma commutes_try_catch {A} (m : M A) (h : exn -> M A) :
  commutes g m -> (forall e, commutes g (h e)) -> commutes g (try_catch m h).
Proof.
intros Hm Hh w. unfold try_catch. rewrite Hm.
destruct (m w) as [[a|e] w1]; simpl; [reflexivity|apply Hh].
Qed.

Lemma commutes_finally {A} (m : M A) (fin : M unit) :
  commutes g m -> commutes g fin -> commutes g (finally m fin).
Proof.
intros Hm Hf w. unfold finally. rewrite Hm.
destruct (m w) as [r w1]; simpl. rewrite Hf.
destruct (fin w1) as [[u|e] w2]; reflexivity.
Qed.

Lemma commutes_for_of {A B} (body : B -> A -> M B) (l : list A) :
  (forall acc x, commutes g (body acc x)) ->
  forall acc, commutes g (for_of body acc l).
Proof.
intros Hb. induction l as [|x l IH]; intros acc; simpl.
- intros w. reflexivity.
- apply commutes_bind; [apply Hb|]. intros a. apply IH.
Qed.

Lemma commutes_if {A} (b : bool) (m1 m2 : M A) :
  commutes g m1 -> commutes g m2 -> commutes g (if b then m1 else m2).
Proof. destruct b; auto. Qed.

Lemma commutes_gets {A} (f : World -> A) :
  (forall w, f (g w) = f w) -> commutes g (gets f).
Proof. intros Hf w. unfold gets. rewrite Hf. reflexivity. Qed.

Lemma commutes_modify (h : World -> World) :
  (forall w, h (g w) = g (h w)) -> commutes g (modify h).
Proof. intros Hh w. unfold modify. rewrite Hh. reflexivity. Qed.

Lemma commutes_pure {A} (r : Result A) : commutes g (fun w => (r, w)).
Proof. intros w. reflexivity. Qed.

Hypothesis g_env : forall w, env (g w) = env w.
Hypothesis g_with_env : forall f w, with_env f (g w) = g (with_env f w).

Lemma commutes_isAvailable : commutes g contract_isAvailable.
Proof.
intros w. unfold contract_isAvailable. rewrite g_env, g_with_env.
destruct (next_fault (env w)); reflexivity.
Qed.

Lemma commutes_getData (key : string) : commutes g (contract_getData key).
Proof.
intros w. unfold contract_getData. rewrite g_env, g_with_env.
destruct (next_fault (env w)); reflexivity.
Qed.

Lemma commutes_setData (key : string) (value : list byte) :
  commutes g (contract_setData key value).
Proof.
intros w. unfold contract_setData. rewrite g_env, !g_with_env.
destruct (next_fault (env w)); reflexivity.
Qed.

End Commutes.

#[local] Hint Extern 1 (commutes _ (_ ≫= _)) =>
  apply commutes_bind; [|intros ?] : frame.
#[local] Hint Extern 1 (commutes _ (try_catch _ _)) =>
  apply commutes_try_catch; [|intros ?] : frame.
#[local] Hint Extern 1 (commutes _ (finally _ _)) =>
  apply commutes_finally : frame.
#[local] Hint Extern 1 (commutes _ (for_of _ _ _)) =>
  apply commutes_for_of; intros ? ? : frame.
#[local] Hint Extern 1 (commutes _ (if _ then _ else _)) =>
  apply commutes_if : frame.
#[local] Hint Extern 1 (commutes _ contract_isAvailable) =>
  apply commutes_isAvailable; reflexivity : frame.
#[local] Hint Extern 1 (commutes _ (contract_getData _)) =>
  apply commutes_getData; reflexivity : frame.
#[local] Hint Extern 1 (commutes _ (contract_setData _ _)) =>
  apply commutes_setData; reflexivity : frame.
#[local] Hint Extern 2 (commutes _ (gets _)) =>
  apply commutes_gets; reflexivity : frame.
#[local] Hint Extern 2 (commutes _ (modify _)) =>
  apply commutes_modify; reflexivity : frame.
#[local] Hint Extern 2 (commutes _ (throw _)) =>
  apply commutes_pure : frame.
#[local] Hint Extern 2 (commutes _ (liftR _)) =>
  apply commutes_pure : frame.
#[local] Hint Extern 2 (commutes _ (mret _)) =>
  apply commutes_pure : frame.

Section Blind.
Context {P : Platform}.

Lemma loadDataList_any_account (acct : string) :
  commutes (with_app (app_setAccount acct)) loadDataList.
Proof.
unfold loadDataList, loadKeys, loadOne, setIsRefreshing, setLoading,
  setDataList, consoleError, getContractReadOnly.
auto 40 with frame.
Qed.

Lemma analyzeData_any_account (acct : string) (dataId : json) :
  commutes (with_app (app_setAccount acct)) (analyzeData dataId).
Proof.
pose proof (loadDataList_any_account acct).
unfold analyzeData, analyzeBody, analyzeError, setTransactionStatus, alert,
  getContractWithSigner.
auto 40 with frame.
Qed.

End Blind.

Section Gate.
Context {P : Platform}.

Lemma showsAnalyze_true (acct : string) (data : MassSpecData.t) :
  showsAnalyze acct data = Ok true ->
  exists o, MassSpecData.owner data = Some (JStr o)
            /\ toLowerCase acct = toLowerCase o
            /\ MassSpecData.status data = JStr "pending".
Proof.
unfold showsAnalyze, isOwner, has_status, strict_eq_str.
destruct (MassSpecData.owner data) as [[| | |o| |]|]; try discriminate.
simpl. intros H. injection H as H. apply andb_true_iff in H as [H1 H2].
exists o. split; [reflexivity|]. split; [apply String.eqb_eq, H1|].
destruct (MassSpecData.status data); try discriminate.
apply String.eqb_eq in H2. congruence.
Qed.

Lemma analyzeButton_some (acct : string) (data : MassSpecData.t) (dataId : json) :
  analyzeButton acct data = Ok (Some dataId) ->
  showsAnalyze acct data = Ok true /\ dataId = MassSpecData.id data.
Proof.
unfold analyzeButton. destruct (showsAnalyze acct data) as [[|]|e]; simpl;
  intros H; inversion H; auto.
Qed.

Lemma clickAnalyze_no_button (data : MassSpecData.t) (w : World) :
  (forall dataId, analyzeButton (account (app w)) data <> Ok (Some dataId)) ->
  clickAnalyze data w = (Ok tt, w).
Proof.
intros H. unfold clickAnalyze, gets. rewrite bind_run.
destruct (analyzeButton (account (app w)) data) as [[dataId|]|e] eqn:E;
  try reflexivity.
exfalso. exact (H dataId eq_refl).
Qed.

(** What [analyzeData] does with a stored record whose bytes parse, when no
    call is rejected: the status of the record plays no part. *)
Lemma analyzeData_overwrites (dataId : json) (w : World)
      (dataBytes : list byte) (stored : json) :
  provider (app w) = true ->
  signerContract (env w) = true ->
  calls_succeed 2 (env w) = true ->
  ledger (env w) !! record_key dataId = Some dataBytes ->
  dataBytes <> [] ->
  parseBytes dataBytes = Ok stored ->
  fst (analyzeData dataId w) = Ok tt
  /\ transactionStatus (app (snd (analyzeData dataId w))) = analysis_completed
  /\ ledger (env (snd (analyzeData dataId w)))
     = <[record_key dataId := encodeBytes (updatedData stored)]> (ledger (env w)).
Proof.
intros Hp Hs Hcs Hl Hne Hparse.
apply (calls_succeed_S _ _ (GetData (record_key dataId))) in Hcs as [Hf1 Hcs].
apply (calls_succeed_S
         _ _ (SetData (record_key dataId) (encodeBytes (updatedData stored))))
  in Hcs as [Hf2 _].
rewrite (analyzeData_run _ _ Hp). unfold try_catch.
rewrite analyzeBody_unfold. simpl. rewrite Hs, Hf1, Hl. simpl.
destruct dataBytes as [|b bs]; [contradiction|]. simpl.
rewrite Hparse, Hf2.
match goal with
| |- context [loadDataList ?w2] =>
    destruct (loadDataList_runs w2) as [w3 E];
    pose proof (loadDataList_ledger _ _ _ E) as HL;
    pose proof (loadDataList_status _ _ _ E) as HS;
    rewrite E
end.
simpl. unfold the_ledger, the_status in HL, HS. simpl in HL, HS.
repeat split; assumption.
Qed.

(** C1, amended.  For every record with owner [O] and every acting identity
    that is not [O] up to the case of letters, the row of the record shows no
    Analyze button, and a click on the row leaves the world as it is: no call
    to the ledger is issued, neither a read nor a write.  [analyzeData]
    itself does not depend on the acting identity: in two worlds that differ
    in the acting identity only it returns the same and changes the same. *)
Theorem analyze_offered_to_owner_only (w : World) :
  (forall (data : MassSpecData.t) (O : string),
      MassSpecData.owner data = Some (JStr O) ->
      toLowerCase (account (app w)) <> toLowerCase O ->
      isOwner (account (app w)) (MassSpecData.owner data) = Ok false
      /\ analyzeButton (account (app w)) data = Ok None
      /\ clickAnalyze data w = (Ok tt, w))
  /\ (forall (dataId : json) (acct : string),
         analyzeData dataId (with_app (app_setAccount acct) w)
         = (fst (analyzeData dataId w),
            with_app (app_setAccount acct) (snd (analyzeData dataId w)))).
Proof.
split.
- intros data O HO Hne.
  assert (Hown : isOwner (account (app w)) (MassSpecData.owner data) = Ok false).
  { rewrite HO. simpl. f_equal. apply String.eqb_neq. exact Hne. }
  assert (Hbut : analyzeButton (account (app w)) data = Ok None).
  { unfold analyzeButton, showsAnalyze. rewrite Hown. reflexivity. }
  split; [exact Hown|]. split; [exact Hbut|].
  apply clickAnalyze_no_button. intros dataId. rewrite Hbut. discriminate.
- intros dataId acct. apply analyzeData_any_account.
Qed.

(** C2, amended.  For every record whose status is [analyzed] or [error] the
    row of the record shows no Analyze button, whoever looks at it, and a
    click on the row leaves the world as it is: the bytes stored under every
    key of the ledger are the bytes stored before.  [analyzeData] itself does
    not test the stored status: called on the key of a stored record whose
    bytes parse, with no call rejected, it overwrites the record with status
    [analyzed] and the result, and ends with the message of success. *)
Theorem analyze_not_offered_unless_pending (w : World) :
  (forall data : MassSpecData.t,
      MassSpecData.status data = JStr "analyzed"
      \/ MassSpecData.status data = JStr "error" ->
      (forall dataId, analyzeButton (account (app w)) data <> Ok (Some dataId))
      /\ clickAnalyze data w = (Ok tt, w)
      /\ (forall key, ledger (env (snd (clickAnalyze data w))) !! key
                      = ledger (env w) !! key))
  /\ (forall (dataId : json) (dataBytes : list byte) (stored : json),
         provider (app w) = true ->
         signerContract (env w) = true ->
         calls_succeed 2 (env w) = true ->
         ledger (env w) !! record_key dataId = Some dataBytes ->
         dataBytes <> [] ->
         parseBytes dataBytes = Ok stored ->
         fst (analyzeData dataId w) = Ok tt
         /\ transactionStatus (app (snd (analyzeData dataId w)))
            = analysis_completed
         /\ ledger (env (snd (analyzeData dataId w)))
            = <[record_key dataId := encodeBytes (updatedData stored)]>
                (ledger (env w))
         /\ get_prop (updatedData stored) "status" = Ok (Some (JStr "analyzed"))).
Proof.
split.
- intros data Hst.
  assert (Hbut : forall dataId,
             analyzeButton (account (app w)) data <> Ok (Some dataId)).
  { intros dataId H. apply analyzeButton_some in H as [H _].
    apply showsAnalyze_true in H as [o [_ [_ H]]].
    destruct Hst as [Hst|Hst]; rewrite Hst in H; discriminate. }
  split; [exact Hbut|].
  rewrite (clickAnalyze_no_button _ _ Hbut). split; reflexivity.
- intros dataId dataBytes stored Hp Hs Hcs Hl Hne Hparse.
  destruct (analyzeData_overwrites dataId w dataBytes stored Hp Hs Hcs Hl Hne Hparse)
    as [H1 [H2 H3]].
  repeat split; auto. apply updatedData_status.
Qed.

End Gate.

(** The acting identity [0xdef] is not the owner [0xAbC] of the pending record
    of the row: no button, and a click does nothing. *)
Lemma analyze_offered_to_owner_only_witness :
  let w := Examples.world_of "0xdef" Examples.ledger_pending in
  let data := Examples.row "0xAbC" "pending" in
  isOwner (account (app w)) (MassSpecData.owner data) = Ok false
  /\ analyzeButton (account (app w)) data = Ok None
  /\ clickAnalyze (P := Concrete.platform) data w = (Ok tt, w).
Proof.
apply (proj1 (analyze_offered_to_owner_only
                (P := Concrete.platform)
                (Examples.world_of "0xdef" Examples.ledger_pending))
             (Examples.row "0xAbC" "pending") "0xAbC").
- reflexivity.
- vm_compute. discriminate.
Defined.

(** The owner looks at the row of a record in status [error], and what
    [analyzeData] does when it is called on that record all the same. *)
Lemma analyze_not_offered_unless_pending_witness :
  let w := Examples.world_of "0xAbC" Examples.ledger_error in
  let data := Examples.row "0xAbC" "error" in
  let stored := Examples.record "0xAbC" "error" 1700000000 in
  ((forall dataId, analyzeButton (account (app w)) data <> Ok (Some dataId))
   /\ clickAnalyze (P := Concrete.platform) data w = (Ok tt, w)
   /\ (forall key,
          ledger (env (snd (clickAnalyze (P := Concrete.platform) data w))) !! key
          = ledger (env w) !! key))
  /\ (fst (analyzeData (P := Concrete.platform) (JStr "a") w) = Ok tt
      /\ transactionStatus
           (app (snd (analyzeData (P := Concrete.platform) (JStr "a") w)))
         = analysis_completed
      /\ ledger (env (snd (analyzeData (P := Concrete.platform) (JStr "a") w)))
         = <[record_key (JStr "a")
               := encodeBytes (P := Concrete.platform) (updatedData stored)]>
             (ledger (env w))
      /\ get_prop (updatedData stored) "status" = Ok (Some (JStr "analyzed"))).
Proof.
split.
- apply (proj1 (analyze_not_offered_unless_pending
                  (P := Concrete.platform)
                  (Examples.world_of "0xAbC" Examples.ledger_error))
               (Examples.row "0xAbC" "error")).
  right. reflexivity.
- apply (proj2 (analyze_not_offered_unless_pending
                  (P := Concrete.platform)
                  (Examples.world_of "0xAbC" Examples.ledger_error))
               (JStr "a")
               (encodeBytes (P := Concrete.platform)
                            (Examples.record "0xAbC" "error" 1700000000))
               (Examples.record "0xAbC" "error" 1700000000));
    try (vm_compute; reflexivity).
  vm_compute. discriminate.
Defined.

(** C1, as stated, fails: the record [a] is owned by [0xAbC], the acting
    identity is [0xdef], and [analyzeData] ends with the message of success
    after it has overwritten the record. *)
Lemma analyze_by_stranger_writes :
  let w := Examples.world_of "0xdef" Examples.ledger_pending in
  let w' := snd (analyzeData (P := Concrete.platform) (JStr "a") w) in
  decodeRecord (P := Concrete.platform) (JStr "a")
               (default [] (ledger (env w) !! "massspec_a"))
    = Ok (Examples.row "0xAbC" "pending")
  /\ isOwner (account (app w)) (Some (JStr "0xAbC")) = Ok false
  /\ fst (analyzeData (P := Concrete.platform) (JStr "a") w) = Ok tt
  /\ transactionStatus (app w')
     = mkTx true TxSuccess "FHE molecular analysis completed successfully!"
  /\ calls (env w')
     = [GetData "massspec_a";
        SetData "massspec_a"
                (encodeBytes (P := Concrete.platform)
                   (updatedData (Examples.record "0xAbC" "pending" 1700000000)));
        IsAvailable; GetData "massspec_keys"; GetData "massspec_a"]
  /\ ledger (env w') !! "massspec_a" <> ledger (env w) !! "massspec_a".
Proof.
  vm_compute. repeat split; discriminate.
Qed.

(** C2, as stated, fails: the record [a] is in status [error], and
    [analyzeData] ends with the message of success after it has replaced the
    stored bytes by those of a record in status [analyzed]. *)
Lemma analyze_again_overwrites :
  let w := Examples.world_of "0xAbC" Examples.ledger_error in
  let w' := snd (analyzeData (P := Concrete.platform) (JStr "a") w) in
  ledger (env w) !! "massspec_a"
    = Some (encodeBytes (P := Concrete.platform)
              (Examples.record "0xAbC" "error" 1700000000))
  /\ transactionStatus (app w')
     = mkTx true TxSuccess "FHE molecular analysis completed successfully!"
  /\ ledger (env w') !! "massspec_a"
     = Some (encodeBytes (P := Concrete.platform)
               (JObj [("data", JStr "FHE-MS-e30="); ("timestamp", JNum 1700000000);
                      ("owner", JStr "0xAbC"); ("sampleType", JStr "Protein");
                      ("status", JStr "analyzed");
                      ("fheResult", JStr fheResult)]))
  /\ ledger (env w') !! "massspec_a" <> ledger (env w) !! "massspec_a".
Proof.
  vm_compute. repeat split; discriminate.
Qed.

(** ** Listing *)

Section Sorting.
Context {P : Platform}.

Lemma sort_insert_perm (x : MassSpecData.t) (l : list MassSpecData.t) :
  Permutation (sort_insert x l) (x :: l).
Proof.
induction l as [|y l IH]; simpl; [reflexivity|].
destruct (compareFn x y <=? 0); [reflexivity|].
rewrite IH. apply perm_swap.
Qed.

Lemma sort_perm (l : list MassSpecData.t) : Permutation (sort l) l.
Proof.
induction l as [|x l IH]; simpl; [reflexivity|].
rewrite sort_insert_perm. constructor. exact IH.
Qed.

Lemma numeric_value (a : MassSpecData.t) :
  numeric a = true -> exists x, ToNumber (MassSpecData.timestamp a) = Some x.
Proof.
unfold numeric. destruct (ToNumber (MassSpecData.timestamp a)) as [x|];
  [eauto|discriminate].
Qed.





Lemma forallb_perm {A} (f : A -> bool) (l l' : list A) :
  Permutation l l' -> forallb f l = forallb f l'.
Proof.
induction 1; simpl; try congruence.
destruct (f x), (f y); reflexivity.
Qed.


End Sorting.

Section ListingRuns.
Context {P : Platform}.

(** One turn of the loop. *)
Lemma loadOne_run (lst : list MassSpecData.t) (key : json) (w : World) :
  exists w',
    loadOne lst key w
    = (Ok (lst ++ match faults (env w) with
                  | Some _ :: _ => []
                  | _ => option_list (fetched (ledger (env w)) key)
                  end), w')
    /\ app w' = app w
    /\ ledger (env w') = ledger (env w)
    /\ faults (env w') = tail (faults (env w)).
Proof.
unfold loadOne, try_catch. rewrite bind_run. unfold contract_getData, next_fault.
fold (record_key key). unfold fetched.
destruct (faults (env w)) as [|[msg|] fs] eqn:Hf; simpl.
- destruct (0 <? length (default [] (ledger (env w) !! record_key key)))%nat.
  + rewrite bind_run. unfold liftR.
    destruct (decodeRecord key _) as [entry|e]; simpl.
    * eexists. split; [reflexivity|]. simpl. rewrite Hf. auto.
    * eexists. rewrite app_nil_r. split; [reflexivity|]. simpl. rewrite Hf. auto.
  + eexists. rewrite app_nil_r. split; [reflexivity|]. simpl. rewrite Hf. auto.
- eexists. rewrite app_nil_r. split; [reflexivity|]. simpl. rewrite Hf. auto.
- destruct (0 <? length (default [] (ledger (env w) !! record_key key)))%nat.
  + rewrite bind_run. unfold liftR.
    destruct (decodeRecord key _) as [entry|e]; simpl.
    * eexists. split; [reflexivity|]. simpl. rewrite Hf. auto.
    * eexists. rewrite app_nil_r. split; [reflexivity|]. simpl. rewrite Hf. auto.
  + eexists. rewrite app_nil_r. split; [reflexivity|]. simpl. rewrite Hf. auto.
Qed.

(** The whole loop. *)
Lemma for_of_loadOne_run (keys : list json) :
  forall (lst : list MassSpecData.t) (w : World),
  exists w',
    for_of loadOne lst keys w
    = (Ok (lst ++ collected (ledger (env w)) (faults (env w)) keys), w')
    /\ app w' = app w
    /\ ledger (env w') = ledger (env w).
Proof.
induction keys as [|key keys IH]; intros lst w; simpl.
- exists w. rewrite app_nil_r. auto.
- rewrite bind_run.
  destruct (loadOne_run lst key w) as [w1 [E [Ha [Hl Hf]]]]. rewrite E.
  destruct (IH (lst ++ match faults (env w) with
                       | Some _ :: _ => []
                       | _ => option_list (fetched (ledger (env w)) key)
                       end) w1) as [w2 [E2 [Ha2 Hl2]]].
  exists w2. rewrite E2, Hl, Hf, <- app_assoc. split; [reflexivity|].
  split; congruence.
Qed.

(** The index read by [loadKeys] when the read is not rejected. *)
Lemma loadKeys_run (site : string) (w : World) :
  next_fault (env w) = None ->
  exists w',
    loadKeys site w = (Ok (indexed (ledger (env w))), w')
    /\ app w' = app w
    /\ ledger (env w') = ledger (env w)
    /\ faults (env w') = tail (faults (env w))
    /\ calls (env w') = calls (env w) ++ [GetData "massspec_keys"]
    /\ readOnlyContract (env w') = readOnlyContract (env w)
    /\ signerContract (env w') = signerContract (env w)
    /\ available (env w') = available (env w).
Proof.
intros Hf. unfold loadKeys. rewrite bind_run. unfold contract_getData.
rewrite Hf. unfold indexed.
destruct (0 <? length (default [] (ledger (env w) !! "massspec_keys")))%nat.
- unfold try_catch, liftR.
  destruct (parseBytes _) as [keys|e]; simpl.
  + eexists. split; [reflexivity|]. simpl. auto 10.
  + eexists. split; [reflexivity|]. simpl. auto 10.
- eexists. split; [reflexivity|]. simpl. auto 10.
Qed.

(** A listing whose first two calls are not rejected replaces [dataList] by
    the sorted records collected over the keys of the index. *)
Lemma loadDataList_run (w : World) (keys : list json) :
  readOnlyContract (env w) = true ->
  available (env w) = true ->
  calls_succeed 2 (env w) = true ->
  iterate (indexed (ledger (env w))) = Ok keys ->
  exists w',
    loadDataList w = (Ok tt, w')
    /\ dataList (app w')
       = sort (collected (ledger (env w)) (drop 2 (faults (env w))) keys)
    /\ ledger (env w') = ledger (env w)
    /\ transactionStatus (app w') = transactionStatus (app w)
    /\ account (app w') = account (app w).
Proof.
intros Hro Hav Hcs Hit.
apply (calls_succeed_S _ _ IsAvailable) in Hcs as [Hf1 Hcs].
apply (calls_succeed_S _ _ (GetData "massspec_keys")) in Hcs as [Hf2 _].
unfold loadDataList. rewrite bind_run. unfold setIsRefreshing at 1. simpl.
unfold finally, try_catch. rewrite bind_run.
unfold getContractReadOnly, gets. simpl. rewrite Hro. simpl.
rewrite bind_run. unfold contract_isAvailable. simpl. rewrite Hf1, Hav. simpl.
rewrite bind_run.
match goal with
| |- context [loadKeys ?s ?w0] =>
    destruct (loadKeys_run s w0) as [w1 [E1 [Ha1 [Hl1 [Hfs1 _]]]]];
      [exact Hf2|]; rewrite E1
end.
simpl in Hl1, Ha1, Hfs1. rewrite bind_run. unfold liftR.
cbn [ledger env with_env with_app env_issue]. rewrite Hit.
rewrite bind_run.
destruct (for_of_loadOne_run keys [] w1) as [w2 [E2 [Ha2 Hl2]]]. rewrite E2.
simpl. eexists. split; [reflexivity|]. simpl.
rewrite Hl1, Hfs1, Ha2, Ha1. simpl.
replace (tail (tail (faults (env w)))) with (drop 2 (faults (env w)))
  by (destruct (faults (env w)) as [|? [|? ?]]; reflexivity).
repeat split; congruence.
Qed.

Lemma collected_no_faults (led : gmap string (list byte)) (keys : list json) :
  collected led [] keys = omap (fetched led) keys.
Proof.
induction keys as [|key keys IH]; simpl; [reflexivity|].
rewrite IH. destruct (fetched led key); reflexivity.
Qed.



End ListingRuns.

Section ListingClaims.
Context {P : Platform}.






End ListingClaims.



(** ** The executable platform obeys the laws *)

Module ConcreteFacts.
Import Concrete.

Local Open Scope N_scope.

Lemma chars_of_string (l : list ascii) :
  list_ascii_of_string (string_of_list_ascii l) = l.
Proof. apply list_ascii_of_string_of_list_ascii. Qed.

(** *** UTF-8 *)

Lemma utf8_decode_encode (c : ascii) (tail : list byte) :
  utf8_decode (utf8_encode c ++ tail) = cons_opt c (utf8_decode tail).
Proof.
destruct c as [[] [] [] [] [] [] [] []]; reflexivity.
Qed.

Lemma utf8_decode_bytes (s : string) : utf8_decode (utf8_bytes s) = Some s.
Proof.
unfold utf8_bytes. induction s as [|c s IH]; [reflexivity|].
cbn [flat_map list_ascii_of_string].
rewrite utf8_decode_encode, IH. reflexivity.
Qed.

(** *** String literals *)

Lemma parse_chars_escape (c : ascii) (tail : list ascii) :
  parse_chars (escape c ++ tail) = cons_char c (parse_chars tail).
Proof.
destruct c as [[] [] [] [] [] [] [] []]; reflexivity.
Qed.

Lemma parse_chars_print (s : string) (rest : list ascii) :
  parse_chars (flat_map escape (list_ascii_of_string s) ++ dquote :: rest)
  = Some (s, rest).
Proof.
induction s as [|c s IH]; [reflexivity|].
cbn [flat_map list_ascii_of_string].
rewrite <- List.app_assoc, parse_chars_escape, IH. reflexivity.
Qed.

Lemma print_string_app (s : string) (rest : list ascii) :
  print_string s ++ rest
  = dquote :: flat_map escape (list_ascii_of_string s) ++ dquote :: rest.
Proof.
unfold print_string. rewrite <- app_comm_cons, <- List.app_assoc. reflexivity.
Qed.

(** *** Numbers *)

Lemma num_chars_uint (d : Decimal.uint) :
  forallb is_num_char (list_ascii_of_string (NilEmpty.string_of_uint d)) = true.
Proof. induction d; simpl; auto. Qed.

Lemma num_chars_int (z : Z) :
  forallb is_num_char (list_ascii_of_string (Z_to_string z)) = true.
Proof.
unfold Z_to_string, NilZero.string_of_int, NilZero.string_of_uint.
destruct (Z.to_int z) as [d|d]; destruct d; simpl; auto using num_chars_uint.
Qed.

Lemma Z_to_string_nonempty (z : Z) : Z_to_string z <> EmptyString.
Proof.
unfold Z_to_string, NilZero.string_of_int, NilZero.string_of_uint.
destruct (Z.to_int z) as [d|d]; destruct d; simpl; discriminate.
Qed.

Lemma span_num_app (tok rest : list ascii) :
  forallb is_num_char tok = true -> delimits rest = true ->
  span_num (tok ++ rest) = (tok, rest).
Proof.
intros Ht Hr. induction tok as [|c tok IH]; simpl in *.
- destruct rest as [|c rest]; [reflexivity|]. simpl in Hr.
  apply andb_true_iff in Hr as [Hc _]. apply negb_true_iff in Hc.
  simpl. rewrite Hc. reflexivity.
- apply andb_true_iff in Ht as [Hc Ht]. rewrite Hc, (IH Ht). reflexivity.
Qed.

Lemma to_int_proper (z : Z) :
  Z.to_int z <> Decimal.Pos Decimal.Nil /\ Z.to_int z <> Decimal.Neg Decimal.Nil.
Proof.
destruct z; simpl; split; try discriminate;
  intros H; injection H; apply DecimalPos.Unsigned.to_uint_nonnil.
Qed.

Lemma int_of_Z_to_string (z : Z) :
  NilZero.int_of_string (Z_to_string z) = Some (Z.to_int z).
Proof.
unfold Z_to_string. destruct (to_int_proper z). apply NilZero.isi; assumption.
Qed.

Lemma Z_to_string_not_minus_zero (z : Z) :
  String.eqb (Z_to_string z) "-0" = false.
Proof.
apply String.eqb_neq. intros H.
pose proof (int_of_Z_to_string z) as Hi. rewrite H in Hi.
assert (E : NilZero.int_of_string "-0"
            = Some (Decimal.Neg (Decimal.D0 Decimal.Nil))) by reflexivity.
rewrite E in Hi. injection Hi as Hi.
pose proof (DecimalZ.of_to z) as Hz. rewrite <- Hi in Hz.
change (0%Z = z) in Hz. subst z. discriminate.
Qed.

Lemma continues_delimits (rest : list ascii) :
  delimits rest = true -> continues_number rest = false.
Proof.
destruct rest as [|c rest]; [reflexivity|]. simpl.
intros H. apply andb_true_iff in H as [_ H]. apply negb_true_iff in H. exact H.
Qed.

Lemma parse_number_print (z : Z) (rest : list ascii) :
  safe_integer z = true -> delimits rest = true ->
  parse_number (list_ascii_of_string (Z_to_string z) ++ rest)
  = Some (JNum z, rest).
Proof.
intros Hs Hr. unfold parse_number.
rewrite (span_num_app _ _ (num_chars_int z) Hr).
rewrite string_of_list_ascii_of_string, (continues_delimits _ Hr).
rewrite Z_to_string_not_minus_zero, int_of_Z_to_string, DecimalZ.of_to.
rewrite String.eqb_refl, Hs. reflexivity.
Qed.


(** *** Values *)

Lemma json_nested_ind (Q : json -> Prop) :
  Q JNull ->
  (forall b, Q (JBool b)) ->
  (forall n, Q (JNum n)) ->
  (forall s, Q (JStr s)) ->
  (forall l, Forall Q l -> Q (JArr l)) ->
  (forall fs, Forall (fun kv => Q (snd kv)) fs -> Q (JObj fs)) ->
  forall v, Q v.
Proof.
intros Hnull Hbool Hnum Hstr Harr Hobj.
fix IH 1. intros [|b|n|s|l|fs].
- exact Hnull.
- apply Hbool.
- apply Hnum.
- apply Hstr.
- apply Harr. induction l as [|x l IHl]; constructor; [apply IH|exact IHl].
- apply Hobj. induction fs as [|[k x] fs IHfs]; constructor;
    [apply IH|exact IHfs].
Qed.

Lemma print_array (l : list json) : print (JArr l) = "["%char :: print_elements l.
Proof. reflexivity. Qed.

Lemma print_object (fs : list (string * json)) :
  print (JObj fs) = "{"%char :: print_members fs.
Proof. reflexivity. Qed.

Lemma parse_value_number (fuel : nat) (c : ascii) (tl : list ascii) :
  is_num_char c = true ->
  parse_value (S fuel) (c :: tl) = parse_number (c :: tl).
Proof.
intros H.
destruct c as [[] [] [] [] [] [] [] []];
  try (vm_compute in H; discriminate H); reflexivity.
Qed.

Lemma parse_value_string (fuel : nat) (tl : list ascii) :
  parse_value (S fuel) (dquote :: tl)
  = match parse_chars tl with
    | Some (str, rest) => Some (JStr str, rest)
    | None => None
    end.
Proof. reflexivity. Qed.

Lemma parse_value_array (fuel : nat) (tl : list ascii) :
  parse_value (S fuel) ("["%char :: tl)
  = match skip_ws tl with
    | c' :: r' =>
        if N_of_ascii c' =? 93 then Some (JArr [], r')
        else
          match parse_elements fuel tl with
          | Some (l, rest) => Some (JArr l, rest)
          | None => None
          end
    | [] => None
    end.
Proof. reflexivity. Qed.

Lemma parse_value_object (fuel : nat) (tl : list ascii) :
  parse_value (S fuel) ("{"%char :: tl)
  = match skip_ws tl with
    | c' :: r' =>
        if N_of_ascii c' =? 125 then Some (JObj [], r')
        else
          match parse_members fuel tl with
          | Some (ms, rest) =>
              Some (JObj (fold_left (fun fs m => obj_set fs (fst m) (snd m))
                                    ms []), rest)
          | None => None
          end
    | [] => None
    end.
Proof. reflexivity. Qed.

Lemma num_char_opens (c : ascii) : is_num_char c = true -> opens_value c.
Proof.
intros H.
destruct c as [[] [] [] [] [] [] [] []];
  try (vm_compute in H; discriminate H); repeat split.
Qed.

Lemma print_head (v : json) :
  exists c tl, print v = c :: tl /\ opens_value c.
Proof.
destruct v as [|[]|n|s|l|fs];
  try (eexists _, _; split; [reflexivity|repeat split]).
pose proof (num_chars_int n) as Hn. pose proof (Z_to_string_nonempty n) as Hne.
simpl. destruct (Z_to_string n) as [|c s]; [contradiction|].
simpl in *. apply andb_true_iff in Hn as [Hc _].
eexists _, _. split; [reflexivity|]. apply num_char_opens, Hc.
Qed.

Lemma skip_ws_head (c : ascii) (tl : list ascii) :
  is_ws c = false -> skip_ws (c :: tl) = c :: tl.
Proof. intros H. simpl. rewrite H. reflexivity. Qed.

Lemma skip_ws_print (v : json) (rest : list ascii) :
  skip_ws (print v ++ rest) = print v ++ rest.
Proof.
destruct (print_head v) as [c [tl [-> [H _]]]]. apply skip_ws_head, H.
Qed.

(** What follows a value in an array or an object delimits it. *)
Lemma delimits_comma (rest : list ascii) : delimits (","%char :: rest) = true.
Proof. reflexivity. Qed.

Lemma delimits_bracket (rest : list ascii) : delimits ("]"%char :: rest) = true.
Proof. reflexivity. Qed.

Lemma delimits_brace (rest : list ascii) : delimits ("}"%char :: rest) = true.
Proof. reflexivity. Qed.

Lemma wf_array_cons (x : json) (l : list json) :
  json_wfb (JArr (x :: l)) = true ->
  json_wfb x = true /\ json_wfb (JArr l) = true.
Proof. simpl. intros H. apply andb_true_iff in H. exact H. Qed.

Lemma parse_elements_print (x : json) (l : list json) :
  Forall parses_back (x :: l) ->
  json_wfb (JArr (x :: l)) = true ->
  forall (fuel : nat) (rest : list ascii),
    (cost_elements (x :: l) <= fuel)%nat ->
    parse_elements fuel (print_elements (x :: l) ++ rest) = Some (x :: l, rest).
Proof.
revert x. induction l as [|y l IH]; intros x HQ Hwf fuel rest Hfuel.
- inversion HQ as [|? ? Hx _]; subst.
  apply wf_array_cons in Hwf as [Hwx _].
  destruct fuel as [|fuel]; [simpl in Hfuel; lia|].
  cbn [print_elements]. rewrite <- List.app_assoc.
  cbn [parse_elements].
  rewrite (Hx Hwx fuel) by (simpl in Hfuel; lia || reflexivity).
  reflexivity.
- inversion HQ as [|? ? Hx HQ']; subst.
  apply wf_array_cons in Hwf as [Hwx Hwl].
  destruct fuel as [|fuel]; [simpl in Hfuel; lia|].
  change (print_elements (x :: y :: l))
    with (print x ++ ","%char :: print_elements (y :: l)).
  rewrite <- List.app_assoc. cbn [parse_elements].
  rewrite (Hx Hwx fuel) by (simpl in Hfuel; lia || reflexivity).
  rewrite <- app_comm_cons.
  change (skip_ws (","%char :: print_elements (y :: l) ++ rest))
    with (","%char :: print_elements (y :: l) ++ rest).
  change (N_of_ascii ","%char =? 44) with true. cbn iota.
  rewrite (IH y HQ' Hwl fuel rest) by (simpl in Hfuel |- *; lia).
  reflexivity.
Qed.

Lemma print_members_cons (k : string) (x : json) (r : list (string * json))
      (rest : list ascii) :
  print_members ((k, x) :: r) ++ rest
  = dquote :: flat_map escape (list_ascii_of_string k)
      ++ dquote :: ":"%char :: print x
      ++ match r with
         | [] => "}"%char :: rest
         | _ :: _ => ","%char :: print_members r ++ rest
         end.
Proof.
change (print_members ((k, x) :: r))
  with (print_string k ++ ":"%char :: print x
        ++ match r with
           | [] => ["}"%char]
           | _ :: _ => ","%char :: print_members r
           end).
rewrite <- List.app_assoc, print_string_app. do 2 f_equal.
rewrite <- !app_comm_cons, <- List.app_assoc. do 3 f_equal.
destruct r; reflexivity.
Qed.

Lemma parse_members_step (fuel : nat) (tl : list ascii) :
  parse_members (S fuel) (dquote :: tl)
  = match parse_chars tl with
    | Some (k, r1) =>
        match skip_ws r1 with
        | colon :: r2 =>
            if N_of_ascii colon =? 58 then
              match parse_value fuel r2 with
              | Some (v, r3) =>
                  match skip_ws r3 with
                  | c :: r4 =>
                      if N_of_ascii c =? 44 then
                        match parse_members fuel r4 with
                        | Some (ms, rest) => Some ((k, v) :: ms, rest)
                        | None => None
                        end
                      else if N_of_ascii c =? 125 then Some ([(k, v)], r4)
                      else None
                  | [] => None
                  end
              | None => None
              end
            else None
        | [] => None
        end
    | None => None
    end.
Proof. reflexivity. Qed.

Lemma wf_object_cons (k : string) (x : json) (fs : list (string * json)) :
  json_wfb (JObj ((k, x) :: fs)) = true ->
  json_wfb x = true /\ json_wfb (JObj fs) = true.
Proof.
simpl. intros H.
apply andb_true_iff in H as [H Hx]. apply andb_true_iff in Hx as [Hx Hfs].
apply andb_true_iff in H as [Hd Hk]. apply andb_true_iff in Hd as [_ Hd].
apply andb_true_iff in Hk as [_ Hk].
split; [exact Hx|]. rewrite Hd, Hk, Hfs. reflexivity.
Qed.

Lemma parse_members_print (k : string) (x : json) (fs : list (string * json)) :
  Forall (fun kv => parses_back (snd kv)) ((k, x) :: fs) ->
  json_wfb (JObj ((k, x) :: fs)) = true ->
  forall (fuel : nat) (rest : list ascii),
    (cost_members ((k, x) :: fs) <= fuel)%nat ->
    parse_members fuel (print_members ((k, x) :: fs) ++ rest)
    = Some ((k, x) :: fs, rest).
Proof.
revert k x. induction fs as [|[k' y] fs IH]; intros k x HQ Hwf fuel rest Hfuel.
- inversion HQ as [|? ? Hx _]; subst. simpl in Hx.
  apply wf_object_cons in Hwf as [Hwx _].
  destruct fuel as [|fuel]; [simpl in Hfuel; lia|].
  rewrite print_members_cons, parse_members_step, parse_chars_print.
  change (skip_ws (":"%char :: print x ++ "}"%char :: rest))
    with (":"%char :: print x ++ "}"%char :: rest).
  change (N_of_ascii ":"%char =? 58) with true. cbn iota.
  rewrite (Hx Hwx fuel) by (simpl in Hfuel; lia || reflexivity).
  reflexivity.
- inversion HQ as [|? ? Hx HQ']; subst. simpl in Hx.
  apply wf_object_cons in Hwf as [Hwx Hwl].
  destruct fuel as [|fuel]; [simpl in Hfuel; lia|].
  rewrite print_members_cons, parse_members_step, parse_chars_print.
  change (skip_ws (":"%char :: print x ++ ","%char
                     :: print_members ((k', y) :: fs) ++ rest))
    with (":"%char :: print x ++ ","%char
            :: print_members ((k', y) :: fs) ++ rest).
  change (N_of_ascii ":"%char =? 58) with true. cbn iota.
  rewrite (Hx Hwx fuel) by (simpl in Hfuel; lia || reflexivity).
  change (skip_ws (","%char :: print_members ((k', y) :: fs) ++ rest))
    with (","%char :: print_members ((k', y) :: fs) ++ rest).
  change (N_of_ascii ","%char =? 44) with true. cbn iota.
  rewrite (IH k' y HQ' Hwl fuel rest) by (simpl in Hfuel |- *; lia).
  reflexivity.
Qed.

(** Assigning the members of an object without repeated names, one after the
    other, builds the object. *)
Lemma obj_set_fresh (fs : list (string * json)) (k : string) (v : json) :
  existsb (String.eqb k) (List.map fst fs) = false ->
  obj_set fs k v = fs ++ [(k, v)].
Proof.
induction fs as [|[k' v'] fs IH]; simpl; [reflexivity|].
intros H. apply orb_false_iff in H as [Hk H]. rewrite Hk, (IH H). reflexivity.
Qed.

Lemma distinct_app_one (ks : list string) (k : string) :
  distinct (ks ++ [k]) = distinct ks && negb (existsb (fun k' => String.eqb k' k) ks).
Proof.
induction ks as [|k0 ks IH]; simpl; [reflexivity|].
rewrite IH, existsb_app. simpl. rewrite orb_false_r.
destruct (existsb (String.eqb k0) ks), (String.eqb k0 k), (distinct ks);
  simpl; auto.
Qed.

Lemma fold_obj_set (ms acc : list (string * json)) :
  distinct (List.map fst (acc ++ ms)) = true ->
  fold_left (fun fs m => obj_set fs (fst m) (snd m)) ms acc = acc ++ ms.
Proof.
revert acc. induction ms as [|[k v] ms IH]; intros acc Hd; simpl.
- rewrite app_nil_r. reflexivity.
- assert (Hd' : distinct (List.map fst ((acc ++ [(k, v)]) ++ ms)) = true).
  { rewrite <- List.app_assoc. exact Hd. }
  rewrite obj_set_fresh.
  + rewrite (IH _ Hd'), <- List.app_assoc. reflexivity.
  + rewrite List.map_app in Hd'. clear IH Hd.
    assert (Hacc : distinct (List.map fst (acc ++ [(k, v)])) = true).
    { revert Hd'. generalize (List.map fst (acc ++ [(k, v)])).
      intros l. induction l as [|a l IHl]; simpl; [reflexivity|].
      rewrite existsb_app. intros H. apply andb_true_iff in H as [H1 H2].
      apply negb_true_iff, orb_false_iff in H1 as [H1 _].
      rewrite H1, (IHl H2). reflexivity. }
    rewrite List.map_app in Hacc. simpl in Hacc.
    rewrite distinct_app_one in Hacc. apply andb_true_iff in Hacc as [_ Hk].
    apply negb_true_iff in Hk. rewrite <- Hk.
    clear. induction (List.map fst acc) as [|a l IHl]; simpl; [reflexivity|].
    rewrite IHl, (String.eqb_sym k a). reflexivity.
Qed.

Lemma wf_object_distinct (fs : list (string * json)) :
  json_wfb (JObj fs) = true -> distinct (List.map fst fs) = true.
Proof.
simpl. intros H. apply andb_true_iff in H as [H _].
apply andb_true_iff in H as [H _]. exact H.
Qed.

Theorem parse_value_print (v : json) : parses_back v.
Proof.
induction v as [|b|n|s|l Hl|fs Hfs] using json_nested_ind;
  intros Hwf fuel rest Hfuel Hrest;
  (destruct fuel as [|fuel]; [simpl in Hfuel; lia|]).
- reflexivity.
- destruct b; reflexivity.
- pose proof (num_chars_int n) as Hn. pose proof (Z_to_string_nonempty n) as Hne.
  pose proof (parse_number_print n rest Hwf Hrest) as Hp.
  cbn [print]. destruct (Z_to_string n) as [|c tl]; [contradiction|].
  cbn [list_ascii_of_string] in *. simpl in Hn.
  apply andb_true_iff in Hn as [Hc _].
  rewrite <- app_comm_cons in *. rewrite (parse_value_number _ _ _ Hc).
  exact Hp.
- cbn [print]. rewrite print_string_app, parse_value_string, parse_chars_print.
  reflexivity.
- rewrite print_array, <- app_comm_cons, parse_value_array.
  destruct l as [|x l].
  + reflexivity.
  + assert (Hhead : exists c tl, print_elements (x :: l) ++ rest = c :: tl
                                 /\ opens_value c).
    { destruct (print_head x) as [c [tl [E Hc]]].
      change (print_elements (x :: l))
        with (print x ++ match l with
                         | [] => ["]"%char]
                         | _ :: _ => ","%char :: print_elements l
                         end).
      rewrite E. eexists _, _. split; [reflexivity|exact Hc]. }
    destruct Hhead as [c [tl [E [Hws [Hc _]]]]].
    change (cost (JArr (x :: l))) with (S (cost_elements (x :: l))) in Hfuel.
    rewrite (parse_elements_print x l Hl Hwf fuel rest) by lia.
    rewrite E, (skip_ws_head _ _ Hws), Hc. reflexivity.
- rewrite print_object, <- app_comm_cons, parse_value_object.
  destruct fs as [|[k x] fs].
  + reflexivity.
  + change (cost (JObj ((k, x) :: fs)))
      with (S (cost_members ((k, x) :: fs))) in Hfuel.
    rewrite (parse_members_print k x fs Hfs Hwf fuel rest) by lia.
    rewrite (fold_obj_set ((k, x) :: fs) []) by (apply wf_object_distinct, Hwf).
    rewrite print_members_cons.
    change (skip_ws (dquote :: ?t)) with (dquote :: t).
    reflexivity.
Qed.

Lemma cost_le_length (v : json) : (cost v <= length (print v))%nat.
Proof.
induction v as [|b|n|s|l Hl|fs Hfs] using json_nested_ind.
- simpl. lia.
- destruct b; simpl; lia.
- pose proof (Z_to_string_nonempty n). cbn [print cost].
  destruct (Z_to_string n); [contradiction|]. simpl. lia.
- cbn [print cost]. unfold print_string. simpl. lia.
- rewrite print_array. change (cost (JArr l)) with (S (cost_elements l)).
  simpl length. apply le_n_S.
  induction Hl as [|x l Hx Hl IH]; [simpl; lia|].
  change (print_elements (x :: l))
    with (print x ++ match l with
                     | [] => ["]"%char]
                     | _ :: _ => ","%char :: print_elements l
                     end).
  rewrite length_app. change (cost_elements (x :: l))
    with (S (cost x + cost_elements l)).
  destruct l; simpl in *; lia.
- rewrite print_object. change (cost (JObj fs)) with (S (cost_members fs)).
  simpl length. apply le_n_S.
  induction Hfs as [|[k x] fs Hx Hfs IH]; [simpl; lia|].
  change (print_members ((k, x) :: fs))
    with (print_string k ++ ":"%char :: print x
          ++ match fs with
             | [] => ["}"%char]
             | _ :: _ => ","%char :: print_members fs
             end).
  rewrite length_app. simpl length. rewrite length_app.
  change (cost_members ((k, x) :: fs)) with (S (cost x + cost_members fs)).
  simpl in Hx.
  destruct fs as [|p fs]; rewrite ?length_app; cbn [length];
    [change (cost_members []) with O|]; lia.
Qed.

Theorem parse_stringify_wf (v : json) :
  json_wf v -> parse (stringify v) = Some v.
Proof.
intros Hwf. unfold parse, stringify. rewrite chars_of_string.
pose proof (parse_value_print v Hwf (2 * length (print v) + 2)%nat []) as H.
rewrite app_nil_r in H. rewrite H; [reflexivity| |reflexivity].
pose proof (cost_le_length v). lia.
Qed.

Lemma utf8_bytes_nonempty (v : json) : utf8_bytes (stringify v) <> [].
Proof.
unfold utf8_bytes, stringify. rewrite chars_of_string.
destruct (print_head v) as [c [tl [-> _]]]. cbn [flat_map].
unfold utf8_encode. destruct (N_of_ascii c <? 128); discriminate.
Qed.

#[export] Instance laws : PlatformLaws platform.
Proof.
split.
- exact parse_stringify_wf.
- exact utf8_decode_bytes.
- exact utf8_bytes_nonempty.
Qed.

End ConcreteFacts.

(** ** The codec of records *)

Section Codec.
Context {P : Platform} {L : PlatformLaws P}.

Lemma parseBytes_encodeBytes (v : json) :
  json_wf v -> parseBytes (encodeBytes v) = Ok v.
Proof.
intros Hwf. unfold parseBytes, encodeBytes.
rewrite utf8_roundtrip, (parse_stringify v Hwf). reflexivity.
Qed.



Lemma valid_record_cases (r : MassSpecData.t) :
  valid_record r = true ->
  exists d t o s st,
    MassSpecData.encryptedData r = Some (JStr d)
    /\ MassSpecData.timestamp r = Some (JNum t) /\ safe_integer t = true
    /\ MassSpecData.owner r = Some (JStr o)
    /\ MassSpecData.sampleType r = Some (JStr s)
    /\ MassSpecData.status r = JStr st
    /\ (st = "pending" \/ st = "analyzed" \/ st = "error")
    /\ (MassSpecData.fheResult r = None
        \/ exists f, MassSpecData.fheResult r = Some (JStr f)).
Proof.
intros H. destruct r as [i ed ts ow sa st f].
unfold valid_record in H. simpl in H |- *.
apply andb_true_iff in H as [H Hf]. apply andb_true_iff in H as [H Hst].
apply andb_true_iff in H as [H Hsa]. apply andb_true_iff in H as [H How].
apply andb_true_iff in H as [Hed Hts].
destruct ed as [[| | |d| |]|]; try discriminate Hed.
destruct ts as [[| |t| | |]|]; try discriminate Hts.
destruct ow as [[| | |o| |]|]; try discriminate How.
destruct sa as [[| | |s| |]|]; try discriminate Hsa.
destruct st as [| | |st| |]; try discriminate Hst.
exists d, t, o, s, st. repeat split; auto.
- simpl in Hst. apply orb_true_iff in Hst as [Hst|Hst];
    [apply orb_true_iff in Hst as [Hst|Hst]|];
    apply String.eqb_eq in Hst; auto.
- destruct f as [[| | |f| |]|]; try discriminate Hf; eauto.
Qed.

Lemma recordObject_wf (r : MassSpecData.t) :
  valid_record r = true -> json_wf (recordObject r).
Proof.
intros H. destruct (valid_record_cases r H)
  as [d [t [o [s [st [Hd [Ht [Hs [Ho [Hsa [Hst [_ Hf]]]]]]]]]]]].
unfold recordObject, json_wf. rewrite Hd, Ht, Ho, Hsa, Hst.
destruct Hf as [->|[f ->]]; simpl; rewrite Hs; reflexivity.
Qed.

Lemma decodeRecord_recordObject (r : MassSpecData.t) :
  valid_record r = true ->
  decodeRecord (MassSpecData.id r) (encodeBytes (recordObject r)) = Ok r.
Proof.
intros H. destruct (valid_record_cases r H)
  as [d [t [o [s [st [Hd [Ht [Hs [Ho [Hsa [Hst [Hin Hf]]]]]]]]]]]].
unfold decodeRecord. rewrite (parseBytes_encodeBytes _ (recordObject_wf r H)).
destruct r as [i d' t' o' s' st' f']. simpl in *. subst.
destruct Hf as [->|[f ->]]; simpl;
  (destruct Hin as [->|[->| ->]]; reflexivity).
Qed.

(** C5.  For every valid record [r], decoding under the key of [r] the bytes
    that encode the object stored for [r] yields [r]; the object that
    [uploadData] stores is the object of the pending record it creates, and
    the object that [analyzeData] makes of the object of a valid record is the
    object of that record with status [analyzed] and the result. *)
Theorem decode_encode_roundtrip (r : MassSpecData.t) :
  valid_record r = true ->
  decodeRecord (MassSpecData.id r) (encodeBytes (recordObject r)) = Ok r
  /\ (forall key encryptedData now account sampleType,
         massSpecData encryptedData now account sampleType
         = recordObject (pendingRecord key encryptedData now account sampleType))
  /\ updatedData (recordObject r) = recordObject (analyzedRecord r)
  /\ valid_record (analyzedRecord r) = true.
Proof.
intros H. destruct (valid_record_cases r H)
  as [d [t [o [s [st [Hd [Ht [Hs [Ho [Hsa [Hst [Hin Hf]]]]]]]]]]]].
split; [|split; [|split]].
- apply decodeRecord_recordObject, H.
- intros. reflexivity.
- unfold updatedData, recordObject, analyzedRecord. simpl.
  rewrite Hd, Ht, Ho, Hsa. destruct Hf as [->|[f ->]]; reflexivity.
- unfold valid_record, analyzedRecord. simpl. rewrite Hd, Ht, Hs, Ho, Hsa.
  reflexivity.
Qed.

End Codec.

(** A pending record and its bytes on the executable platform. *)
Lemma decode_encode_roundtrip_witness :
  let r := Examples.row "0xAbC" "pending" in
  decodeRecord (P := Concrete.platform) (MassSpecData.id r)
               (encodeBytes (P := Concrete.platform) (recordObject r)) = Ok r
  /\ (forall key encryptedData now account sampleType,
         massSpecData encryptedData now account sampleType
         = recordObject (pendingRecord key encryptedData now account sampleType))
  /\ updatedData (recordObject r) = recordObject (analyzedRecord r)
  /\ valid_record (analyzedRecord r) = true.
Proof.
apply (decode_encode_roundtrip (P := Concrete.platform)
                               (L := ConcreteFacts.laws)
                               (Examples.row "0xAbC" "pending")).
reflexivity.
Defined.

(** ** Create *)

Section Consumes.

Lemma consumes_pure {A} (m : M A) :
  (forall w, faults (env (snd (m w))) = faults (env w)) -> consumes m.
Proof.
intros Hm w r w' H. specialize (Hm w). rewrite H in Hm. simpl in Hm.
exists O. rewrite Hm. reflexivity.
Qed.

Lemma consumes_bind {A B} (m : M A) (k : A -> M B) :
  consumes m -> (forall a, consumes (k a)) -> consumes (m ≫= k).
Proof.
intros Hm Hk w r w' H. rewrite bind_run in H.
destruct (m w) as [[a|e] w1] eqn:E.
- destruct (Hm _ _ _ E) as [n1 F1]. destruct (Hk a _ _ _ H) as [n2 F2].
  exists (n1 + n2)%nat. rewrite F2, F1. apply drop_drop.
- inversion H; subst. exact (Hm _ _ _ E).
Qed.

Lemma consumes_try_catch {A} (m : M A) (h : exn -> M A) :
  consumes m -> (forall e, consumes (h e)) -> consumes (try_catch m h).
Proof.
intros Hm Hh w r w' H. unfold try_catch in H.
destruct (m w) as [[a|e] w1] eqn:E.
- inversion H; subst. exact (Hm _ _ _ E).
- destruct (Hm _ _ _ E) as [n1 F1]. destruct (Hh e _ _ _ H) as [n2 F2].
  exists (n1 + n2)%nat. rewrite F2, F1. apply drop_drop.
Qed.

Lemma consumes_finally {A} (m : M A) (fin : M unit) :
  consumes m -> consumes fin -> consumes (finally m fin).
Proof.
intros Hm Hf w r w' H. unfold finally in H.
destruct (m w) as [r1 w1] eqn:E. destruct (Hm _ _ _ E) as [n1 F1].
destruct (fin w1) as [[u|e] w2] eqn:E2; inversion H; subst;
  destruct (Hf _ _ _ E2) as [n2 F2];
  exists (n1 + n2)%nat; rewrite F2, F1; apply drop_drop.
Qed.

Lemma consumes_for_of {A B} (body : B -> A -> M B) (l : list A) :
  (forall acc x, consumes (body acc x)) ->
  forall acc, consumes (for_of body acc l).
Proof.
intros Hb. induction l as [|x l IH]; intros acc; simpl.
- apply consumes_pure. reflexivity.
- apply consumes_bind; [apply Hb|]. intros a. apply IH.
Qed.

Lemma consumes_if {A} (b : bool) (m1 m2 : M A) :
  consumes m1 -> consumes m2 -> consumes (if b then m1 else m2).
Proof. destruct b; auto. Qed.

Lemma consumes_isAvailable : consumes contract_isAvailable.
Proof.
intros w r w' H. unfold contract_isAvailable in H.
destruct (next_fault (env w)); inversion H; subst; simpl;
  exists 1%nat; destruct (faults (env w)); reflexivity.
Qed.

Lemma consumes_getData (key : string) : consumes (contract_getData key).
Proof.
intros w r w' H. unfold contract_getData in H.
destruct (next_fault (env w)); inversion H; subst; simpl;
  exists 1%nat; destruct (faults (env w)); reflexivity.
Qed.

End Consumes.

#[local] Hint Resolve consumes_isAvailable consumes_getData : frame.
#[local] Hint Extern 1 (consumes (_ ≫= _)) =>
  apply consumes_bind; [|intros ?] : frame.
#[local] Hint Extern 1 (consumes (try_catch _ _)) =>
  apply consumes_try_catch; [|intros ?] : frame.
#[local] Hint Extern 1 (consumes (finally _ _)) =>
  apply consumes_finally : frame.
#[local] Hint Extern 1 (consumes (for_of _ _ _)) =>
  apply consumes_for_of; intros ? ? : frame.
#[local] Hint Extern 1 (consumes (if _ then _ else _)) =>
  apply consumes_if : frame.
#[local] Hint Extern 5 (consumes _) =>
  apply consumes_pure; reflexivity : frame.

Section CleanListing.
Context {P : Platform}.

Lemma consumes_loadDataList : consumes loadDataList.
Proof.
unfold loadDataList, loadKeys, loadOne, setIsRefreshing, setLoading,
  setDataList, consoleError.
auto 40 with frame.
Qed.

Lemma loadDataList_contracts : preserves the_contracts loadDataList.
Proof.
unfold loadDataList, loadKeys, loadOne, setIsRefreshing, setLoading,
  setDataList, consoleError.
auto 40 with frame.
Qed.

(** A listing in a world where no call is rejected. *)
Lemma loadDataList_clean (w : World) (keys : list json) :
  readOnlyContract (env w) = true ->
  available (env w) = true ->
  faults (env w) = [] ->
  indexed (ledger (env w)) = JArr keys ->
  exists w',
    loadDataList w = (Ok tt, w')
    /\ dataList (app w') = sort (omap (fetched (ledger (env w))) keys)
    /\ ledger (env w') = ledger (env w)
    /\ faults (env w') = []
    /\ the_contracts w' = the_contracts w
    /\ transactionStatus (app w') = transactionStatus (app w)
    /\ exists reads, calls (env w') = calls (env w) ++ reads
                     /\ Forall is_read reads.
Proof.
intros Hro Hav Hnf Hidx.
assert (Hcs : calls_succeed 2 (env w) = true).
{ unfold calls_succeed. rewrite Hnf. reflexivity. }
destruct (loadDataList_run w keys Hro Hav Hcs) as [w' [E [Hd [Hl [Ht _]]]]].
{ rewrite Hidx. reflexivity. }
exists w'. split; [exact E|].
rewrite Hnf in Hd. simpl in Hd. rewrite collected_no_faults in Hd.
split; [exact Hd|]. split; [exact Hl|].
split.
{ destruct (consumes_loadDataList _ _ _ E) as [n Hn].
  rewrite Hn, Hnf. apply drop_nil. }
split; [exact (loadDataList_contracts _ _ _ E)|].
split; [exact Ht|]. exact (reads_only_loadDataList _ _ _ E).
Qed.

End CleanListing.

Section Create.
Context {P : Platform} {L : PlatformLaws P}.





Lemma indexed_insert_record (led : gmap string (list byte)) (key : string)
      (value : list byte) :
  key <> "massspec_keys" -> indexed (<[key := value]> led) = indexed led.
Proof.
intros Hne. unfold indexed. rewrite lookup_insert_ne by exact Hne. reflexivity.
Qed.




End Create.

Section Identifiers.






End Identifiers.

Section CreateClaims.
Context {P : Platform} {L : PlatformLaws P}.




End CreateClaims.





(** * Further facts on the component *)

(** ** Listing: what always holds, stale lists, refreshing twice *)

Section ListingMore.
Context {P : Platform}.

Lemma loadDataList_session : preserves the_session loadDataList.
Proof.
unfold loadDataList, loadKeys, loadOne, setIsRefreshing, setLoading,
  setDataList, consoleError.
auto 40 with frame.
Qed.

Lemma loadDataList_flags (w : World) :
  isRefreshing (app (snd (loadDataList w))) = false
  /\ loading (app (snd (loadDataList w))) = false.
Proof.
unfold loadDataList. rewrite bind_run. unfold setIsRefreshing at 1. simpl.
unfold finally.
match goal with |- context [try_catch ?m ?h ?w0] =>
  destruct (try_catch m h w0) as [r w1] end.
simpl. auto.
Qed.

(** Whatever the ledger answers, a listing ends: it returns, both spinners
    are off, it has issued reads only, and the ledger, the account, the
    connection, the form and the message are the ones before.  The Refresh
    button is therefore enabled after every listing. *)
Theorem listing_always_settles (w : World) :
  let w' := snd (loadDataList w) in
  fst (loadDataList w) = Ok tt
  /\ isRefreshing (app w') = false
  /\ loading (app w') = false
  /\ the_session w' = the_session w
  /\ ledger (env w') = ledger (env w)
  /\ (exists reads, calls (env w') = calls (env w) ++ reads
                    /\ Forall is_read reads)
  /\ clickRefresh w' = loadDataList w'
  /\ loading (app (snd (mount w))) = false.
Proof.
intros w'. destruct (loadDataList_runs w) as [w1 E].
destruct (loadDataList_flags w) as [Hr Hl].
assert (Hw : w' = w1) by (unfold w'; rewrite E; reflexivity).
rewrite E. fold w' in Hr, Hl. rewrite Hw in *. simpl.
split; [reflexivity|]. split; [exact Hr|]. split; [exact Hl|].
split; [exact (loadDataList_session _ _ _ E)|].
split; [exact (loadDataList_ledger _ _ _ E)|].
split; [exact (reads_only_loadDataList _ _ _ E)|].
split.
- unfold clickRefresh. rewrite bind_run. unfold gets. rewrite Hr. reflexivity.
- unfold mount, finally. rewrite E. reflexivity.
Qed.


Ltac listing_start :=
  unfold loadDataList; rewrite bind_run; unfold setIsRefreshing at 1;
  cbn [modify]; unfold finally, try_catch; rewrite bind_run;
  unfold getContractReadOnly, gets; cbn [app env with_app with_env].

(** A listing that cannot reach the index keeps the list that is shown: with
    no read-only contract it does so silently, without a call or a message;
    when the availability check is rejected or answers no, after that one
    call; when the read of the index is rejected, after these two calls.  In
    the last two cases one message goes to the console. *)
Theorem listing_unreachable_keeps_list (w : World) :
  let w' := snd (loadDataList w) in
  (readOnlyContract (env w) = false ->
     dataList (app w') = dataList (app w)
     /\ calls (env w') = calls (env w)
     /\ console (env w') = console (env w))
  /\ (readOnlyContract (env w) = true ->
      next_fault (env w) <> None \/ available (env w) = false ->
      dataList (app w') = dataList (app w)
      /\ calls (env w') = calls (env w) ++ [IsAvailable]
      /\ length (console (env w')) = S (length (console (env w))))
  /\ (readOnlyContract (env w) = true ->
      available (env w) = true ->
      (exists msg rest, faults (env w) = None :: Some msg :: rest) ->
      dataList (app w') = dataList (app w)
      /\ calls (env w') = calls (env w) ++ [IsAvailable; GetData "massspec_keys"]
      /\ length (console (env w')) = S (length (console (env w)))).
Proof.
intros w'. unfold w'. clear w'.
remember (loadDataList w) as rw eqn:E.
split; [|split].
- intros Hro. revert E. listing_start. rewrite Hro. simpl.
  intros ->. simpl. auto.
- intros Hro Hc. revert E. listing_start. rewrite Hro. cbn [negb].
  rewrite bind_run. unfold contract_isAvailable.
  cbn [app env with_app with_env].
  destruct (next_fault (env w)) as [msg|] eqn:Hf.
  + simpl. intros ->. simpl. rewrite length_app. simpl.
    split; [reflexivity|]. split; [reflexivity|lia].
  + destruct Hc as [Hc|Hav]; [congruence|]. rewrite Hav. simpl.
    intros ->. simpl. rewrite length_app. simpl.
    split; [reflexivity|]. split; [reflexivity|lia].
- intros Hro Hav [msg [rest Hfs]]. revert E. listing_start. rewrite Hro.
  cbn [negb]. rewrite bind_run. unfold contract_isAvailable.
  cbn [app env with_app with_env]. unfold next_fault at 1. rewrite Hfs, Hav.
  cbn [negb]. rewrite bind_run. unfold loadKeys. rewrite bind_run.
  unfold contract_getData, next_fault. simpl. rewrite Hfs. simpl.
  intros ->. simpl. rewrite length_app, <- app_assoc. simpl.
  split; [reflexivity|]. split; [reflexivity|lia].
Qed.

(** An index that cannot be read as a list.  Bytes that are absent or do not
    parse count as the empty index, so the listing empties the list that is
    shown; bytes that parse to a value that cannot be iterated (null, a
    boolean, a number, an object) make the listing fail, and the list that is
    shown stays. *)
Theorem listing_with_unreadable_index (w : World) :
  readOnlyContract (env w) = true ->
  available (env w) = true ->
  calls_succeed 2 (env w) = true ->
  let w' := snd (loadDataList w) in
  (indexed (ledger (env w)) = JArr [] -> dataList (app w') = [])
  /\ ((exists bytes e, ledger (env w) !! "massspec_keys" = Some bytes
                      /\ parseBytes bytes = Throw e) ->
      dataList (app w') = [])
  /\ (ledger (env w) !! "massspec_keys" = None -> dataList (app w') = [])
  /\ ((exists e, iterate (indexed (ledger (env w))) = Throw e) ->
      dataList (app w') = dataList (app w)
      /\ console (env w') = console (env w) ++ ["Error loading data:"]).
Proof.
intros Hro Hav Hcs w'.
assert (Hempty : indexed (ledger (env w)) = JArr [] -> dataList (app w') = []).
{ intros Hidx.
  destruct (loadDataList_run w [] Hro Hav Hcs) as [w1 [E [Hd _]]].
  { rewrite Hidx. reflexivity. }
  unfold w'. rewrite E. exact Hd. }
split; [exact Hempty|]. split; [|split].
- intros [bytes [e [Hb He]]]. apply Hempty. unfold indexed. rewrite Hb. simpl.
  rewrite He. destruct (0 <? length bytes)%nat; reflexivity.
- intros Hb. apply Hempty. unfold indexed. rewrite Hb. reflexivity.
- intros [e Hit]. unfold w'. clear w' Hempty.
  remember (loadDataList w) as rw eqn:E. revert E.
  apply (calls_succeed_S _ _ IsAvailable) in Hcs as [Hf1 Hcs].
  apply (calls_succeed_S _ _ (GetData "massspec_keys")) in Hcs as [Hf2 _].
  listing_start. rewrite Hro. cbn [negb]. rewrite bind_run.
  unfold contract_isAvailable. cbn [app env with_app with_env].
  rewrite Hf1, Hav. cbn [negb]. rewrite bind_run.
  unfold loadKeys. rewrite bind_run. unfold contract_getData.
  cbn [app env with_app with_env]. rewrite Hf2.
  cbn [ledger env_issue].
  unfold indexed in Hit.
  destruct (0 <? length (default [] (ledger (env w) !! "massspec_keys")))%nat.
  + unfold liftR at 1.
    destruct (parseBytes (default [] (ledger (env w) !! "massspec_keys")))
      as [keys|e'].
    * unfold try_catch at 1. cbv iota beta. rewrite bind_run.
      unfold liftR. rewrite Hit. simpl.
      intros ->. simpl. auto.
    * discriminate.
  + discriminate.
Qed.


End ListingMore.

(** A world that shows a row but has no read-only contract, one whose ledger
    is not available, and one whose read of the index is rejected. *)
Lemma listing_unreachable_keeps_list_witness :
  let shown := [Examples.row "0xAbC" "pending"] in
  let w := Examples.showing shown
             (Examples.world_of "0xAbC" Examples.ledger_mixed) in
  let after (w0 : World) := snd (loadDataList (P := Concrete.platform) w0) in
  (dataList (app (after (Examples.without_reader w))) = shown
   /\ calls (env (after (Examples.without_reader w))) = []
   /\ console (env (after (Examples.without_reader w))) = [])
  /\ (dataList (app (after (Examples.unavailable w))) = shown
      /\ calls (env (after (Examples.unavailable w))) = [IsAvailable]
      /\ length (console (env (after (Examples.unavailable w)))) = 1%nat)
  /\ (dataList (app (after (Examples.failing [None; Some "timeout"] w))) = shown
      /\ calls (env (after (Examples.failing [None; Some "timeout"] w)))
         = [IsAvailable; GetData "massspec_keys"]
      /\ length (console (env (after (Examples.failing [None; Some "timeout"] w))))
         = 1%nat).
Proof.
intros shown w after.
split; [|split].
- apply (proj1 (listing_unreachable_keeps_list
                  (P := Concrete.platform) (Examples.without_reader w))).
  reflexivity.
- apply (proj1 (proj2 (listing_unreachable_keeps_list
                         (P := Concrete.platform) (Examples.unavailable w)))).
  + reflexivity.
  + right. reflexivity.
- apply (proj2 (proj2 (listing_unreachable_keeps_list
                         (P := Concrete.platform)
                         (Examples.failing [None; Some "timeout"] w)))).
  + reflexivity.
  + reflexivity.
  + exists "timeout", []. reflexivity.
Defined.

(** An index that is the JSON object [{}] and one whose bytes are not JSON,
    while the row [a] is shown. *)
Lemma listing_with_unreadable_index_witness :
  let shown := [Examples.row "0xAbC" "pending"] in
  let w1 := Examples.showing shown
              (Examples.world_of "0xAbC" Examples.ledger_object_index) in
  let w2 := Examples.showing shown
              (Examples.world_of "0xAbC" Examples.ledger_garbled_index) in
  (dataList (app (snd (loadDataList (P := Concrete.platform) w1))) = shown
   /\ console (env (snd (loadDataList (P := Concrete.platform) w1)))
      = ["Error loading data:"])
  /\ dataList (app (snd (loadDataList (P := Concrete.platform) w2))) = [].
Proof.
intros shown w1 w2. split.
- destruct (listing_with_unreadable_index (P := Concrete.platform) w1
               eq_refl eq_refl eq_refl) as [_ [_ [_ H]]].
  apply H. exists TypeError. vm_compute. reflexivity.
- destruct (listing_with_unreadable_index (P := Concrete.platform) w2
               eq_refl eq_refl eq_refl) as [_ [H _]].
  apply H. exists (Concrete.utf8_bytes "[oops"), SyntaxError.
  split; vm_compute; reflexivity.
Defined.


(** ** The order of equal timestamps, and rows that no counter counts *)

Section ViewMore.
Context {P : Platform}.

Lemma stamped_cons (t : Z) (x : MassSpecData.t) (l : list MassSpecData.t) :
  stamped t (x :: l) = stamped t [x] ++ stamped t l.
Proof. exact (List.filter_app _ [x] l). Qed.

Lemma stamped_sort_insert (t : Z) (x : MassSpecData.t)
      (l : list MassSpecData.t) :
  numeric x = true -> forallb numeric l = true ->
  stamped t (sort_insert x l) = stamped t (x :: l).
Proof.
intros Hx. induction l as [|y l IH]; [reflexivity|].
intros Hl. simpl in Hl. apply andb_true_iff in Hl as [Hy Hl].
cbn [sort_insert]. destruct (compareFn x y <=? 0) eqn:Hc; [reflexivity|].
apply Z.leb_gt in Hc.
rewrite (stamped_cons t y (sort_insert x l)), (IH Hl).
rewrite (stamped_cons t x (y :: l)), (stamped_cons t y l),
  (stamped_cons t x l).
destruct (numeric_value _ Hx) as [tx Htx].
destruct (numeric_value _ Hy) as [ty Hty].
unfold compareFn in Hc. rewrite Htx, Hty in Hc.
unfold stamped at 1 2 4 5. simpl. rewrite Htx, Hty.
destruct (tx =? t) eqn:Ex, (ty =? t) eqn:Ey; try reflexivity.
apply Z.eqb_eq in Ex, Ey. lia.
Qed.

(** The sort of the listing is stable: when every timestamp is a number, the
    records of one and the same timestamp stand in the sorted list in the
    order in which the index names them. *)
Theorem sort_keeps_index_order_of_equal_timestamps
        (l : list MassSpecData.t) (t : Z) :
  forallb numeric l = true ->
  stamped t (sort l) = stamped t l.
Proof.
induction l as [|x l IH]; [reflexivity|].
intros Hl. simpl in Hl. apply andb_true_iff in Hl as [Hx Hl].
change (sort (x :: l)) with (sort_insert x (sort l)).
rewrite stamped_sort_insert.
- rewrite (stamped_cons t x (sort l)), (IH Hl), <- stamped_cons.
  reflexivity.
- exact Hx.
- rewrite (forallb_perm _ _ _ (sort_perm l)). exact Hl.
Qed.

Lemma counters_and_others (dataList : list MassSpecData.t) :
  (analyzedCount dataList + pendingCount dataList + errorCount dataList
   + length (List.filter (fun d => negb (counted d)) dataList)
   = length dataList)%nat.
Proof.
unfold analyzedCount, pendingCount, errorCount, counted.
induction dataList as [|d l IH]; simpl; [reflexivity|].
destruct (has_status "analyzed" d) eqn:A, (has_status "pending" d) eqn:B,
  (has_status "error" d) eqn:C; simpl; try lia;
  match goal with
  | H1 : has_status ?s d = true, H2 : has_status ?s' d = true |- _ =>
      discriminate (has_status_unique _ _ _ H1 H2)
  end.
Qed.

Lemma others_none (dataList : list MassSpecData.t) :
  length (List.filter (fun d => negb (counted d)) dataList) = 0%nat
  <-> forallb counted dataList = true.
Proof.
induction dataList as [|d l IH]; simpl; [tauto|].
destruct (counted d); simpl.
- exact IH.
- split; intros; discriminate.
Qed.


(** The three counters and the rows of any other status make up the list: a
    row whose status is not one of [analyzed], [pending] and [error] (a
    number, or another word) is shown in the table and counted in the total,
    but in no counter, so the counters add up to the total exactly when no
    such row is listed. *)
Theorem counters_miss_other_statuses (dataList : list MassSpecData.t) :
  (analyzedCount dataList + pendingCount dataList + errorCount dataList
   + length (List.filter (fun d => negb (counted d)) dataList)
   = length dataList)%nat
  /\ ((analyzedCount dataList + pendingCount dataList + errorCount dataList
       = length dataList)%nat
      <-> forallb counted dataList = true).
Proof.
pose proof (counters_and_others dataList) as H.
split; [exact H|]. rewrite <- others_none. lia.
Qed.

End ViewMore.

(** Four rows, two of them of the timestamp 1700000000: [a] stays before
    [c]. *)
Lemma sort_keeps_index_order_of_equal_timestamps_witness :
  let at_ (i : string) (t : Z) :=
    {| MassSpecData.id := JStr i;
       MassSpecData.encryptedData := None;
       MassSpecData.timestamp := Some (JNum t);
       MassSpecData.owner := None;
       MassSpecData.sampleType := None;
       MassSpecData.status := JStr "pending";
       MassSpecData.fheResult := None |} in
  let l := [at_ "a" 1700000000; at_ "b" 1700000500; at_ "c" 1700000000;
            at_ "d" 1600000000] in
  stamped (P := Concrete.platform) 1700000000 (sort (P := Concrete.platform) l)
  = [at_ "a" 1700000000; at_ "c" 1700000000].
Proof.
intros at_ l.
exact (sort_keeps_index_order_of_equal_timestamps
         (P := Concrete.platform) l 1700000000 eq_refl).
Defined.

(** ** Search and status filter *)

Section FilterMore.
Context {P : Platform}.

Lemma includes_empty (s : string) : includes s "" = true.
Proof. destruct s; reflexivity. Qed.

Lemma matchesRow_answers (q f : string) (d : MassSpecData.t) (b : bool) :
  matchesRow q f d = Ok b -> (b = true <-> answers q f d).
Proof.
unfold matchesRow, answers, lowered.
destruct (MassSpecData.sampleType d) as [[|?|?|s|?|?]|]; try discriminate.
assert (Hf : String.eqb f "all" || strict_eq_str (MassSpecData.status d) f = true
             <-> (f = "all" \/ MassSpecData.status d = JStr f)).
{ rewrite orb_true_iff, String.eqb_eq.
  assert (strict_eq_str (MassSpecData.status d) f = true
          <-> MassSpecData.status d = JStr f) as ->; [|tauto].
  unfold strict_eq_str.
  destruct (MassSpecData.status d); try (split; discriminate).
  rewrite String.eqb_eq. split; congruence. }
simpl. destruct (includes (toLowerCase s) (toLowerCase q)) eqn:Hs; simpl.
- intros [= <-]. rewrite Hf. split.
  + intros H. split; [exact H|]. exists s. auto.
  + tauto.
- destruct (MassSpecData.id d) as [|?|?|i|?|?] eqn:Hi; try discriminate.
  simpl. intros [= <-]. rewrite andb_true_iff, Hf. split.
  + intros [H1 H2]. split; [exact H2|]. exists s. split; [reflexivity|].
    right. exists i. auto.
  + intros [H1 [s' [[= <-] [H2|[i' [[= <-] H2]]]]]]; [congruence|]. auto.
Qed.

Lemma matchesRow_throws (q f : string) (d : MassSpecData.t) (e : exn) :
  matchesRow q f d = Throw e -> e = TypeError.
Proof.
unfold matchesRow, lowered.
destruct (MassSpecData.sampleType d) as [[|?|?|s|?|?]|]; simpl;
  try (intros [= <-]; reflexivity).
destruct (includes (toLowerCase s) (toLowerCase q)); simpl; [discriminate|].
destruct (MassSpecData.id d) as [|?|?|i|?|?]; simpl;
  try (intros [= <-]; reflexivity); discriminate.
Qed.

Lemma matchesRow_searchable (q f : string) (d : MassSpecData.t) :
  searchable d = true -> exists b, matchesRow q f d = Ok b.
Proof.
unfold searchable, matchesRow, lowered, is_string.
destruct (MassSpecData.sampleType d) as [[|?|?|s|?|?]|]; try discriminate.
destruct (MassSpecData.id d) as [|?|?|i|?|?]; try discriminate.
intros _. simpl.
destruct (includes (toLowerCase s) (toLowerCase q)); simpl; eauto.
Qed.

Lemma matchesRow_untyped (q f : string) (d : MassSpecData.t) :
  is_string (MassSpecData.sampleType d) = false ->
  matchesRow q f d = Throw TypeError.
Proof.
unfold matchesRow, lowered, is_string.
destruct (MassSpecData.sampleType d) as [[|?|?|s|?|?]|];
  try discriminate; reflexivity.
Qed.

Lemma filteredData_throws (q f : string) (l : list MassSpecData.t) (e : exn) :
  filteredData q f l = Throw e -> e = TypeError.
Proof.
unfold filteredData. induction l as [|x l IH]; simpl; [discriminate|].
destruct (matchesRow q f x) as [b|e'] eqn:Hx; simpl.
- destruct (filter_rows (matchesRow q f) l) as [rest|e'']; simpl.
  + discriminate.
  + intros [= <-]. apply IH. reflexivity.
- intros [= <-]. exact (matchesRow_throws _ _ _ _ Hx).
Qed.

Lemma filteredData_untyped (q f : string) (l : list MassSpecData.t)
      (d : MassSpecData.t) :
  In d l -> is_string (MassSpecData.sampleType d) = false ->
  filteredData q f l = Throw TypeError.
Proof.
intros Hin Hd.
destruct (filteredData q f l) as [l'|e] eqn:E.
- exfalso. revert l' E. unfold filteredData.
  induction l as [|x l IH]; simpl in *; [tauto|].
  intros l'. destruct Hin as [->|Hin].
  + rewrite (matchesRow_untyped _ _ _ Hd). discriminate.
  + destruct (matchesRow q f x); simpl; [|discriminate].
    destruct (filter_rows (matchesRow q f) l) as [rest|]; simpl;
      [|discriminate].
    intros _. exact (IH Hin rest eq_refl).
- rewrite (filteredData_throws _ _ _ _ E). reflexivity.
Qed.

(** What the table shows.  When the filter returns, the rows it returns are
    rows of the list in the order of the list, and a row of the list is among
    them exactly when it answers the search and the status filter. *)
Theorem filter_shows_the_answering_rows
        (q f : string) (l l' : list MassSpecData.t) :
  filteredData q f l = Ok l' ->
  sublist l' l
  /\ forall d, In d l' <-> In d l /\ answers q f d.
Proof.
unfold filteredData. revert l'.
induction l as [|x l IH]; simpl; intros l'.
- intros [= <-]. split; [constructor|]. intros d. simpl. tauto.
- destruct (matchesRow q f x) as [b|e] eqn:Hx; simpl; [|discriminate].
  destruct (filter_rows (matchesRow q f) l) as [rest|e]; simpl;
    [|discriminate].
  destruct (IH rest eq_refl) as [Hsub Hin].
  pose proof (matchesRow_answers _ _ _ _ Hx) as Hb.
  intros [= <-]. destruct b.
  + split; [constructor; exact Hsub|]. intros d. simpl. rewrite Hin.
    split.
    * intros [<-|[H1 H2]]; [|auto]. split; [auto|]. apply Hb. reflexivity.
    * intros [[<-|H1] H2]; auto.
  + split; [constructor; exact Hsub|]. intros d. rewrite Hin. split.
    * intros [H1 H2]. auto.
    * intros [[<-|H1] H2]; [|auto]. apply Hb in H2. discriminate.
Qed.

(** When the filter returns and when it throws.  It returns when the sample
    type and the identifier of every row are strings; it throws a
    [TypeError], and no row is shown, as soon as the sample type of one row
    of the list is not a string, whatever the search and the filter. *)
Theorem filter_needs_string_sample_types
        (q f : string) (l : list MassSpecData.t) :
  (forallb searchable l = true -> exists l', filteredData q f l = Ok l')
  /\ ((exists d, In d l /\ is_string (MassSpecData.sampleType d) = false) ->
      filteredData q f l = Throw TypeError).
Proof.
split.
- unfold filteredData. induction l as [|x l IH]; simpl; [eauto|].
  intros H. apply andb_true_iff in H as [Hx Hl].
  destruct (matchesRow_searchable q f x Hx) as [b ->].
  destruct (IH Hl) as [rest ->]. simpl. eauto.
- intros [d [Hin Hd]]. exact (filteredData_untyped q f l d Hin Hd).
Qed.

(** The default view.  With an empty search, the filter [all] shows the whole
    list, and a status filter shows the rows of that status, as many as the
    counter of that status counts. *)
Theorem empty_search_shows_rows_by_status (l : list MassSpecData.t) :
  Forall (fun d => is_string (MassSpecData.sampleType d) = true) l ->
  filteredData "" "all" l = Ok l
  /\ (forall s, s <> "all" ->
        filteredData "" s l = Ok (List.filter (has_status s) l))
  /\ (exists shown, filteredData "" "analyzed" l = Ok shown
                    /\ length shown = analyzedCount l)
  /\ (exists shown, filteredData "" "pending" l = Ok shown
                    /\ length shown = pendingCount l)
  /\ (exists shown, filteredData "" "error" l = Ok shown
                    /\ length shown = errorCount l).
Proof.
intros Hl.
assert (Hrow : forall f d, is_string (MassSpecData.sampleType d) = true ->
          matchesRow "" f d
          = Ok (String.eqb f "all" || has_status f d)).
{ intros f d. unfold matchesRow, lowered, is_string, has_status.
  destruct (MassSpecData.sampleType d) as [[|?|?|s|?|?]|]; try discriminate.
  intros _. simpl. rewrite includes_empty. reflexivity. }
assert (Hall : filteredData "" "all" l = Ok l).
{ unfold filteredData. induction Hl as [|x l Hx Hl IH]; simpl; [reflexivity|].
  rewrite (Hrow _ _ Hx), IH. reflexivity. }
assert (Hs : forall s, s <> "all" ->
          filteredData "" s l = Ok (List.filter (has_status s) l)).
{ intros s Hne. apply String.eqb_neq in Hne. clear Hall.
  unfold filteredData. induction Hl as [|x l Hx Hl IH]; simpl; [reflexivity|].
  rewrite (Hrow _ _ Hx), IH, Hne. simpl.
  destruct (has_status s x); reflexivity. }
split; [exact Hall|]. split; [exact Hs|].
split; [|split]; eexists; (split; [apply Hs; discriminate|reflexivity]).
Qed.

End FilterMore.

(** Three rows searched for [LIP] among the pending ones: the pending lipid
    row is shown, the analyzed one and the protein row are not. *)
Lemma filter_shows_the_answering_rows_witness :
  let l := [Examples.sample "a" "Protein" "pending";
            Examples.sample "b" "Lipid" "pending";
            Examples.sample "c" "lipid" "analyzed"] in
  let l' := [Examples.sample "b" "Lipid" "pending"] in
  sublist l' l
  /\ forall d, In d l' <-> In d l /\ answers "LIP" "pending" d.
Proof.
intros l l'.
exact (filter_shows_the_answering_rows
         "LIP" "pending" l l' eq_refl).
Defined.

(** Two rows of sample types that are strings, and the same two rows before a
    row decoded from a record without a sample type. *)
Lemma filter_needs_string_sample_types_witness :
  let l := [Examples.sample "a" "Protein" "pending";
            Examples.sample "b" "Lipid" "pending"] in
  let untyped :=
    {| MassSpecData.id := JStr "c";
       MassSpecData.encryptedData := Some (JStr "FHE-MS-e30=");
       MassSpecData.timestamp := Some (JNum 7);
       MassSpecData.owner := Some (JStr "0xAbC");
       MassSpecData.sampleType := None;
       MassSpecData.status := JStr "pending";
       MassSpecData.fheResult := None |} in
  (exists l', filteredData "lip" "all" l = Ok l')
  /\ filteredData "lip" "all" (l ++ [untyped])
     = Throw TypeError.
Proof.
intros l untyped. split.
- apply (proj1 (filter_needs_string_sample_types
                  "lip" "all" l)).
  reflexivity.
- apply (proj2 (filter_needs_string_sample_types
                  "lip" "all" (l ++ [untyped]))).
  exists untyped. split; [|reflexivity].
  simpl. right. right. left. reflexivity.
Defined.

(** Three rows of three statuses. *)
Lemma empty_search_shows_rows_by_status_witness :
  let l := [Examples.sample "a" "Protein" "pending";
            Examples.sample "b" "Lipid" "analyzed";
            Examples.sample "c" "Lipid" "pending"] in
  filteredData "" "all" l = Ok l
  /\ (forall s, s <> "all" ->
        filteredData "" s l
        = Ok (List.filter (has_status s) l))
  /\ (exists shown, filteredData "" "analyzed" l = Ok shown
                    /\ length shown = analyzedCount l)
  /\ (exists shown, filteredData "" "pending" l = Ok shown
                    /\ length shown = pendingCount l)
  /\ (exists shown, filteredData "" "error" l = Ok shown
                    /\ length shown = errorCount l).
Proof.
intros l.
apply (empty_search_shows_rows_by_status l).
repeat constructor.
Defined.

Section ListedThenFiltered.
Context {P : Platform}.



End ListedThenFiltered.


(** ** Letter case *)



Section LetterCase.
Context {P : Platform}.


End LetterCase.

(** ** Create: every outcome *)

Lemma preserves_setData {X : Type} (f : World -> X) (key : string)
      (value : list byte) :
  (forall w c, f (with_env (env_issue c) w) = f w) ->
  (forall w, f (with_env (env_store key value) w) = f w) ->
  preserves f (contract_setData key value).
Proof.
intros Hi Hs w r w' H. unfold contract_setData in H.
destruct (next_fault (env w)); inversion H; subst.
- apply Hi.
- rewrite Hs. apply Hi.
Qed.

Lemma consumes_setData (key : string) (value : list byte) :
  consumes (contract_setData key value).
Proof.
intros w r w' H. unfold contract_setData in H. exists 1%nat.
destruct (next_fault (env w)); inversion H; subst; simpl;
  destruct (faults (env w)); reflexivity.
Qed.

#[local] Hint Resolve consumes_setData : frame.
#[local] Hint Extern 1 (preserves _ (contract_setData _ _)) =>
  apply preserves_setData;
    [reflexivity
    |intros; simpl; first [reflexivity | apply lookup_insert_ne; assumption]]
  : frame.

Section CreateMore.
Context {P : Platform}.





Lemma uploadData_other_key (now1 now2 : Z) (rnd : string) (key : string) :
  created_key now1 rnd <> key -> "massspec_keys" <> key ->
  preserves (fun w => ledger (env w) !! key) (uploadData now1 now2 rnd).
Proof.
intros H1 H2. unfold created_key in H1.
unfold uploadData, uploadBody, uploadError, loadDataList, loadKeys, loadOne,
  setIsRefreshing, setLoading, setDataList, setUploading,
  setTransactionStatus, consoleError, alert, getContractWithSigner, throw.
cbv zeta. auto 60 with frame.
Qed.






(** A create writes under two keys only: whatever happens, every other key of
    the ledger, and so every other record, holds what it held. *)
Theorem create_writes_two_keys_only
        (now1 now2 : Z) (rnd : string) (w : World) (key : string) :
  key <> created_key now1 rnd ->
  key <> "massspec_keys" ->
  ledger (env (snd (uploadData now1 now2 rnd w))) !! key
  = ledger (env w) !! key.
Proof.
intros H1 H2.
destruct (uploadData now1 now2 rnd w) as [r w'] eqn:E.
exact (uploadData_other_key now1 now2 rnd key
         (fun H => H1 (eq_sym H)) (fun H => H2 (eq_sym H)) _ _ _ E).
Qed.


End CreateMore.


(** The record [a] is not touched by a create, even by one whose index write
    is rejected. *)
Lemma create_writes_two_keys_only_witness :
  let w := Examples.failing [None; None; Some "nonce too low"]
             (Examples.world_of "0xAbC" Examples.ledger_pending) in
  ledger (env (snd (uploadData (P := Concrete.platform) 1700000000123
                      1700000000456 "k3x9q2a" w))) !! "massspec_a"
  = ledger (env w) !! "massspec_a".
Proof.
intros w.
apply (create_writes_two_keys_only (P := Concrete.platform)
         1700000000123 1700000000456 "k3x9q2a" w "massspec_a");
  vm_compute; discriminate.
Defined.


(** ** The form and the wallet *)

Section FormMore.
Context {P : Platform}.


Lemma handleSubmit_filled (now1 now2 : Z) (rnd : string) (w : World) :
  nd_sampleType (newData (app w)) <> "" ->
  nd_massSpecData (newData (app w)) <> "" ->
  handleSubmit now1 now2 rnd w = uploadData now1 now2 rnd w.
Proof.
intros H1%String.eqb_neq H2%String.eqb_neq.
unfold handleSubmit. rewrite bind_run. unfold gets. cbv iota beta.
rewrite H1, H2. reflexivity.
Qed.

(** The two required fields.  A submit with an empty sample type or an empty
    data field alerts and does nothing else: no call is issued and the state
    of the component stays; the description may be empty.  With both fields
    filled the submit is the create.  While an upload runs the button is
    disabled and a click does nothing. *)
Theorem submit_requires_both_fields
        (now1 now2 : Z) (rnd : string) (w : World) :
  (nd_sampleType (newData (app w)) = ""
   \/ nd_massSpecData (newData (app w)) = "" ->
   handleSubmit now1 now2 rnd w
   = (Ok tt, with_env (env_alert "Please fill required fields") w))
  /\ (nd_sampleType (newData (app w)) <> "" ->
      nd_massSpecData (newData (app w)) <> "" ->
      handleSubmit now1 now2 rnd w = uploadData now1 now2 rnd w)
  /\ (uploading (app w) = true -> clickSubmit now1 now2 rnd w = (Ok tt, w))
  /\ (uploading (app w) = false ->
      clickSubmit now1 now2 rnd w = handleSubmit now1 now2 rnd w).
Proof.
split; [|split; [|split]].
- intros H. unfold handleSubmit. rewrite bind_run. unfold gets.
  cbv iota beta.
  assert (E : String.eqb (nd_sampleType (newData (app w))) ""
              || String.eqb (nd_massSpecData (newData (app w))) "" = true).
  { apply orb_true_iff. rewrite !String.eqb_eq. exact H. }
  rewrite E. reflexivity.
- apply handleSubmit_filled.
- intros H. unfold clickSubmit. rewrite bind_run. unfold gets.
  cbv iota beta. rewrite H. reflexivity.
- intros H. unfold clickSubmit. rewrite bind_run. unfold gets.
  cbv iota beta. rewrite H. reflexivity.
Qed.

End FormMore.

Section FormStored.
Context {P : Platform} {L : PlatformLaws P}.


End FormStored.

(** An empty data field, and the form of the examples. *)
Lemma submit_requires_both_fields_witness :
  let w := Examples.world_of "0xAbC" Examples.ledger_pending in
  let w0 := Examples.typed "Protein" "run 7" "" w in
  handleSubmit (P := Concrete.platform) 1700000000123 1700000000456 "k3x9q2a" w0
  = (Ok tt, with_env (env_alert "Please fill required fields") w0)
  /\ handleSubmit (P := Concrete.platform) 1700000000123 1700000000456
                  "k3x9q2a" w
     = uploadData (P := Concrete.platform) 1700000000123 1700000000456
                  "k3x9q2a" w.
Proof.
intros w w0. split.
- apply (proj1 (submit_requires_both_fields (P := Concrete.platform)
                  1700000000123 1700000000456 "k3x9q2a" w0)).
  right. reflexivity.
- apply (proj1 (proj2 (submit_requires_both_fields (P := Concrete.platform)
                         1700000000123 1700000000456 "k3x9q2a" w)));
    discriminate.
Defined.


(** ** Analyze: every outcome, and the record after it *)

Lemma obj_set_same (fs : list (string * json)) (k : string) (v : json) :
  assoc k fs = Some v -> obj_set fs k v = fs.
Proof.
induction fs as [|[k' v'] fs IH]; simpl; [discriminate|].
destruct (String.eqb_spec k k') as [->|Hk].
- intros [= ->]. reflexivity.
- intros H. rewrite (IH H). reflexivity.
Qed.

Lemma keys_obj_set (fs : list (string * json)) (k : string) (v : json) :
  List.map fst (obj_set fs k v)
  = if existsb (String.eqb k) (List.map fst fs)
    then List.map fst fs
    else List.map fst fs ++ [k].
Proof.
induction fs as [|[k' v'] fs IH]; simpl; [reflexivity|].
destruct (String.eqb_spec k k') as [->|Hk]; simpl; [reflexivity|].
rewrite IH. destruct (existsb (String.eqb k) (List.map fst fs)); reflexivity.
Qed.

Lemma distinct_snoc (l : list string) (k : string) :
  distinct l = true -> existsb (String.eqb k) l = false ->
  distinct (l ++ [k]) = true.
Proof.
induction l as [|x l IH]; simpl; [reflexivity|].
intros [Hx Hl]%andb_true_iff [Hk Hkl]%orb_false_iff.
apply andb_true_iff. split; [|exact (IH Hl Hkl)].
rewrite existsb_app, negb_orb. apply andb_true_iff. split; [exact Hx|].
simpl. rewrite orb_false_r, String.eqb_sym, Hk. reflexivity.
Qed.

Lemma json_wfb_obj (fs : list (string * json)) :
  json_wfb (JObj fs)
  = distinct (List.map fst fs)
    && forallb (fun k => negb (all_digits k)) (List.map fst fs)
    && forallb (fun p => json_wfb (snd p)) fs.
Proof.
cbn [json_wfb]. f_equal.
induction fs as [|[k v] fs IH]; [reflexivity|].
cbn [forallb snd]. rewrite <- IH. reflexivity.
Qed.

Lemma json_wf_obj_set (fs : list (string * json)) (k : string) (v : json) :
  json_wf (JObj fs) -> all_digits k = false -> json_wf v ->
  json_wf (JObj (obj_set fs k v)).
Proof.
unfold json_wf. rewrite !json_wfb_obj, keys_obj_set.
intros [[H1 H2]%andb_true_iff H3]%andb_true_iff Hk Hv.
assert (H4 : forallb (fun p => json_wfb (snd p)) (obj_set fs k v) = true).
{ clear H1 H2. induction fs as [|[k' v'] fs IH]; simpl in *.
  - rewrite Hv. reflexivity.
  - apply andb_true_iff in H3 as [Hv' H3].
    destruct (String.eqb k k'); simpl.
    + rewrite Hv, H3. reflexivity.
    + rewrite Hv', (IH H3). reflexivity. }
rewrite H4, andb_true_r.
destruct (existsb (String.eqb k) (List.map fst fs)) eqn:He.
- rewrite H1, H2. reflexivity.
- rewrite (distinct_snoc _ _ H1 He), forallb_app, H2. simpl.
  rewrite Hk. reflexivity.
Qed.

Section AnalyzeMore.
Context {P : Platform}.

Lemma updatedData_fields (data : json) :
  exists fs,
    updatedData data = JObj fs
    /\ assoc "status" fs = Some (JStr "analyzed")
    /\ assoc "fheResult" fs = Some (JStr fheResult)
    /\ forall k, k <> "status" -> k <> "fheResult" ->
                 assoc k fs = assoc k (spread data).
Proof.
unfold updatedData. eexists. split; [reflexivity|]. split; [|split].
- rewrite assoc_obj_set_ne by discriminate. apply assoc_obj_set_eq.
- apply assoc_obj_set_eq.
- intros k H1 H2. rewrite !assoc_obj_set_ne by assumption. reflexivity.
Qed.

Lemma updatedData_idem (data : json) :
  updatedData (updatedData data) = updatedData data.
Proof.
destruct (updatedData_fields data) as [fs [E [Hs [Hf _]]]].
rewrite E. unfold updatedData. cbn [spread].
rewrite (obj_set_same _ _ _ Hs), (obj_set_same _ _ _ Hf). reflexivity.
Qed.

Lemma updatedData_wf (fs : list (string * json)) :
  json_wf (JObj fs) -> json_wf (updatedData (JObj fs)).
Proof.
intros H. unfold updatedData. cbn [spread].
apply json_wf_obj_set; [|reflexivity|reflexivity].
apply json_wf_obj_set; [exact H|reflexivity|reflexivity].
Qed.

(** What an analysis makes of a record.  The status becomes [analyzed] and
    the result the fixed profile; every other property, the owner, the
    sample type, the timestamp and the data among them, is the one the
    record had; analyzing what was analyzed changes nothing. *)
Theorem analysis_changes_status_and_result_only (data : json) :
  get_prop (updatedData data) "status" = Ok (Some (JStr "analyzed"))
  /\ get_prop (updatedData data) "fheResult" = Ok (Some (JStr fheResult))
  /\ (forall k, k <> "status" -> k <> "fheResult" ->
        get_prop (updatedData data) k = Ok (assoc k (spread data)))
  /\ updatedData (updatedData data) = updatedData data.
Proof.
destruct (updatedData_fields data) as [fs [E [Hs [Hf Hk]]]].
rewrite updatedData_idem, E. cbn [get_prop]. rewrite Hs, Hf.
split; [reflexivity|]. split; [reflexivity|]. split; [|reflexivity].
intros k H1 H2. rewrite (Hk k H1 H2). reflexivity.
Qed.

(** One attempt: the [try] block and its [catch]. *)
Lemma analyze_attempt (dataId : json) (w : World) :
  let key := record_key dataId in
  exists w1,
    try_catch (analyzeBody dataId) analyzeError w = (Ok tt, w1)
    /\ tx_visible (transactionStatus (app w1)) = true
    /\ ((transactionStatus (app w1) = analysis_completed
         /\ exists bytes data,
             ledger (env w) !! key = Some bytes
             /\ bytes <> []
             /\ parseBytes bytes = Ok data
             /\ ledger (env w1)
                = <[key := encodeBytes (updatedData data)]> (ledger (env w)))
        \/ (tx_status (transactionStatus (app w1)) = TxError
            /\ dataList (app w1) = dataList (app w)
            /\ ledger (env w1) = ledger (env w))).
Proof.
intros key. unfold try_catch. rewrite analyzeBody_unfold. fold key.
destruct (signerContract (env w)); cbn [negb]; cbv iota zeta.
- destruct (next_fault (env w)) as [msg|].
  { eexists. split; [reflexivity|]. split; [reflexivity|]. right.
    repeat split; reflexivity. }
  destruct (ledger (env w) !! key) as [bytes|] eqn:Hb;
    cbn [default from_option id]; unfold id.
  + destruct bytes as [|b bs]; cbn [length Nat.eqb].
    { eexists. split; [reflexivity|]. split; [reflexivity|]. right.
      repeat split; reflexivity. }
    destruct (parseBytes (b :: bs)) as [data|e] eqn:Hp.
    * destruct (next_fault _) as [msg|].
      { eexists. split; [reflexivity|]. split; [reflexivity|]. right.
        repeat split; reflexivity. }
      match goal with
      | |- context [loadDataList ?w5] =>
          destruct (loadDataList_runs w5) as [w6 E];
          pose proof (loadDataList_ledger _ _ _ E) as HL;
          pose proof (loadDataList_status _ _ _ E) as HS;
          rewrite E
      end.
      unfold the_ledger, the_status in HL, HS.
      cbn [app env ledger with_env with_app env_store env_issue
           app_setTransactionStatus transactionStatus] in HL, HS.
      exists w6. split; [reflexivity|]. split; [rewrite HS; reflexivity|].
      left. split; [exact HS|]. exists (b :: bs), data.
      split; [reflexivity|]. split; [discriminate|]. split; [exact Hp|].
      exact HL.
    * eexists. split; [reflexivity|]. split; [reflexivity|]. right.
      repeat split; reflexivity.
  + eexists. split; [reflexivity|]. split; [reflexivity|]. right.
    repeat split; reflexivity.
- eexists. split; [reflexivity|]. split; [reflexivity|]. right.
  repeat split; reflexivity.
Qed.

Lemma analyzeData_session (dataId : json) :
  preserves (fun w => (the_user w, uploading (app w))) (analyzeData dataId).
Proof.
unfold analyzeData, analyzeBody, analyzeError, loadDataList, loadKeys,
  loadOne, setIsRefreshing, setLoading, setDataList, setTransactionStatus,
  consoleError, alert, getContractWithSigner, throw.
auto 60 with frame.
Qed.

Lemma analyzeData_other_key (dataId : json) (key : string) :
  record_key dataId <> key ->
  preserves (fun w => ledger (env w) !! key) (analyzeData dataId).
Proof.
intros H1. unfold record_key in H1.
unfold analyzeData, analyzeBody, analyzeError, loadDataList, loadKeys,
  loadOne, setIsRefreshing, setLoading, setDataList, setTransactionStatus,
  consoleError, alert, getContractWithSigner, throw.
auto 60 with frame.
Qed.

(** Every outcome of an analysis.  With a wallet connected, an analysis
    returns, leaves the account, the connection, the form and the upload
    spinner as they are, and shows either the message of success or an error
    message.  After success the record was stored, its bytes parsed, and the
    ledger is the one before with that record rewritten as analyzed.  After
    an error the ledger and the list that is shown are what they were. *)
Theorem analyze_outcomes (dataId : json) (w : World) :
  provider (app w) = true ->
  let w' := snd (analyzeData dataId w) in
  let key := record_key dataId in
  fst (analyzeData dataId w) = Ok tt
  /\ the_user w' = the_user w
  /\ uploading (app w') = uploading (app w)
  /\ tx_visible (transactionStatus (app w')) = true
  /\ ((transactionStatus (app w') = analysis_completed
       /\ exists bytes data,
           ledger (env w) !! key = Some bytes
           /\ bytes <> []
           /\ parseBytes bytes = Ok data
           /\ ledger (env w')
              = <[key := encodeBytes (updatedData data)]> (ledger (env w)))
      \/ (tx_status (transactionStatus (app w')) = TxError
          /\ dataList (app w') = dataList (app w)
          /\ ledger (env w') = ledger (env w))).
Proof.
intros Hp w' key.
assert (Hu : the_user w' = the_user w /\ uploading (app w') = uploading (app w)).
{ unfold w'. destruct (analyzeData dataId w) as [r wf] eqn:E.
  pose proof (analyzeData_session dataId _ _ _ E) as H.
  pose proof (f_equal fst H) as H1. pose proof (f_equal snd H) as H2.
  cbn [fst snd] in H1, H2 |- *. auto. }
destruct Hu as [Hu1 Hu2].
unfold w' in *. rewrite (analyzeData_run _ _ Hp) in *.
match goal with
| |- context [try_catch _ _ ?w0] =>
    destruct (analyze_attempt dataId w0) as [w1 [E1 [Hv H]]]
end.
rewrite E1 in *. cbn [fst snd] in *.
split; [reflexivity|]. split; [exact Hu1|]. split; [exact Hu2|].
split; [exact Hv|]. exact H.
Qed.

(** An analysis writes under one key only, the key of the identifier it is
    given: whatever happens, every other key of the ledger holds what it
    held, so no other record changes, nor the index unless the identifier
    is [keys]. *)
Theorem analyze_writes_one_key_only (dataId : json) (w : World) (key : string) :
  key <> record_key dataId ->
  ledger (env (snd (analyzeData dataId w))) !! key = ledger (env w) !! key.
Proof.
intros H1.
destruct (analyzeData dataId w) as [r w'] eqn:E.
exact (analyzeData_other_key dataId key (fun H => H1 (eq_sym H)) _ _ _ E).
Qed.

End AnalyzeMore.

Section AnalyzeListed.
Context {P : Platform}.


(** An analysis in a world where no call is rejected. *)
Lemma analyzeData_clean (dataId : json) (w : World) (keys : list json)
      (bytes : list byte) (stored : json) :
  provider (app w) = true ->
  signerContract (env w) = true ->
  readOnlyContract (env w) = true ->
  available (env w) = true ->
  faults (env w) = [] ->
  record_key dataId <> "massspec_keys" ->
  indexed (ledger (env w)) = JArr keys ->
  ledger (env w) !! record_key dataId = Some bytes ->
  bytes <> [] ->
  parseBytes bytes = Ok stored ->
  let led' :=
    <[record_key dataId := encodeBytes (updatedData stored)]> (ledger (env w)) in
  exists w',
    analyzeData dataId w = (Ok tt, w')
    /\ ledger (env w') = led'
    /\ dataList (app w') = sort (omap (fetched led') keys)
    /\ faults (env w') = []
    /\ the_contracts w' = the_contracts w
    /\ provider (app w') = true
    /\ transactionStatus (app w') = analysis_completed.
Proof.
intros Hp Hs Hro Hav Hnf Hkey Hidx Hb Hne Hparse led'.
destruct (analyzeData dataId w) as [r wf] eqn:E0.
pose proof (analyzeData_session dataId _ _ _ E0) as Hsess.
apply (f_equal fst) in Hsess. apply (f_equal (fun u => snd (fst u))) in Hsess.
cbn [fst snd the_user] in Hsess.
revert E0. rewrite (analyzeData_run _ _ Hp). unfold try_catch.
rewrite analyzeBody_unfold.
cbn [app env ledger with_env with_app env_issue faults signerContract].
rewrite Hs. cbn [negb]. cbv iota zeta.
assert (Hf : next_fault (env w) = None)
  by (unfold next_fault; rewrite Hnf; reflexivity).
cbn [app env ledger with_env with_app env_issue faults signerContract].
rewrite Hf, Hb. cbn [default from_option id]. unfold id.
destruct bytes as [|b bs]; [contradiction|]. cbn [length Nat.eqb].
rewrite Hparse.
assert (Hf2 : forall c, next_fault (env_issue c (env w)) = None).
{ intros c. unfold next_fault. simpl. rewrite Hnf. reflexivity. }
rewrite Hf2.
match goal with
| |- context [loadDataList ?w5] =>
    destruct (loadDataList_clean w5 keys)
      as [w6 [E [Hd [Hl [Hfs [Hk [Ht _]]]]]]]
end.
{ exact Hro. }
{ exact Hav. }
{ simpl. rewrite Hnf. reflexivity. }
{ cbn [app env ledger with_env with_app env_issue env_store].
  rewrite (indexed_insert_record _ _ _ Hkey). exact Hidx. }
rewrite E. intros [= <- <-]. exists w6. split; [reflexivity|].
cbn [app env ledger with_env with_app env_issue env_store] in Hl, Hd.
split; [exact Hl|]. split; [exact Hd|]. split; [exact Hfs|].
split; [exact Hk|]. split; [rewrite Hsess; exact Hp|]. exact Ht.
Qed.

End AnalyzeListed.

Section Lifecycle.
Context {P : Platform} {L : PlatformLaws P}.


(** Analyzing twice.  When no call is rejected, a second analysis of the same
    stored object leaves the ledger and the list as the first left them. *)
Theorem analyze_twice_same_ledger
        (dataId : json) (w : World) (keys : list json) (bytes : list byte)
        (fs : list (string * json)) :
  provider (app w) = true ->
  signerContract (env w) = true ->
  readOnlyContract (env w) = true ->
  available (env w) = true ->
  faults (env w) = [] ->
  record_key dataId <> "massspec_keys" ->
  indexed (ledger (env w)) = JArr keys ->
  ledger (env w) !! record_key dataId = Some bytes ->
  bytes <> [] ->
  parseBytes bytes = Ok (JObj fs) ->
  json_wf (JObj fs) ->
  let w1 := snd (analyzeData dataId w) in
  let w2 := snd (analyzeData dataId w1) in
  ledger (env w2) = ledger (env w1)
  /\ dataList (app w2) = dataList (app w1)
  /\ transactionStatus (app w2) = analysis_completed.
Proof.
intros Hp Hs Hro Hav Hnf Hkey Hidx Hb Hne Hparse Hwf w1 w2.
destruct (analyzeData_clean dataId w keys bytes (JObj fs)
            Hp Hs Hro Hav Hnf Hkey Hidx Hb Hne Hparse)
  as [w' [E [Hl [Hd [Hf' [Hk [Hp' _]]]]]]].
assert (Hw1 : w1 = w') by (unfold w1; rewrite E; reflexivity).
unfold w2. rewrite Hw1. clear w2 w1 Hw1.
unfold the_contracts in Hk. injection Hk as Hro' Hs' Hav'.
destruct (analyzeData_clean dataId w' keys
            (encodeBytes (updatedData (JObj fs))) (updatedData (JObj fs)))
  as [w'' [E2 [Hl2 [Hd2 [_ [_ [_ Ht2]]]]]]]; try congruence.
{ rewrite Hl, (indexed_insert_record _ _ _ Hkey). exact Hidx. }
{ rewrite Hl. apply lookup_insert_eq. }
{ apply encoded_nonempty. }
{ apply parseBytes_encodeBytes, updatedData_wf, Hwf. }
rewrite E2. cbn [snd].
assert (Hsame : ledger (env w'') = ledger (env w')).
{ rewrite Hl2, updatedData_idem, Hl. apply insert_insert_eq. }
split; [exact Hsame|]. split; [|exact Ht2].
rewrite Hd2, Hd, <- Hl2, Hsame, Hl. reflexivity.
Qed.

End Lifecycle.

(** The owner analyzes the pending record [a]. *)
Lemma analyze_outcomes_witness :
  let w := Examples.world_of "0xAbC" Examples.ledger_pending in
  let w2 := Examples.world_of "0xAbC" Examples.ledger_garbled in
  transactionStatus
    (app (snd (analyzeData (P := Concrete.platform) (JStr "a") w)))
  = analysis_completed
  /\ (tx_status (transactionStatus
        (app (snd (analyzeData (P := Concrete.platform) (JStr "a") w2))))
      = TxError
      /\ ledger (env (snd (analyzeData (P := Concrete.platform) (JStr "a") w2)))
         = ledger (env w2)).
Proof.
intros w w2.
destruct (analyze_outcomes (P := Concrete.platform) (JStr "a") w eq_refl)
  as [_ [_ [_ [_ H]]]].
destruct (analyze_outcomes (P := Concrete.platform) (JStr "a") w2 eq_refl)
  as [_ [_ [_ [_ H2]]]].
split.
- destruct H as [[H _]|[H _]]; [exact H|]. vm_compute in H. discriminate.
- destruct H2 as [[H2 _]|[H2 [_ H3]]]; [|split; assumption].
  vm_compute in H2. discriminate.
Defined.

(** The index and the record [d] are not touched by the analysis of [a]. *)
Lemma analyze_writes_one_key_only_witness :
  let w := Examples.world_of "0xAbC" Examples.ledger_mixed in
  let w' := snd (analyzeData (P := Concrete.platform) (JStr "a") w) in
  ledger (env w') !! "massspec_d" = ledger (env w) !! "massspec_d"
  /\ ledger (env w') !! "massspec_keys" = ledger (env w) !! "massspec_keys".
Proof.
intros w w'. split.
- apply (analyze_writes_one_key_only (P := Concrete.platform)
           (JStr "a") w "massspec_d"). vm_compute. discriminate.
- apply (analyze_writes_one_key_only (P := Concrete.platform)
           (JStr "a") w "massspec_keys"). vm_compute. discriminate.
Defined.


(** The owner analyzes the pending record [a] twice. *)
Lemma analyze_twice_same_ledger_witness :
  let w := Examples.world_of "0xAbC" Examples.ledger_pending in
  let w1 := snd (analyzeData (P := Concrete.platform) (JStr "a") w) in
  let w2 := snd (analyzeData (P := Concrete.platform) (JStr "a") w1) in
  ledger (env w2) = ledger (env w1)
  /\ dataList (app w2) = dataList (app w1)
  /\ transactionStatus (app w2) = analysis_completed.
Proof.
apply (analyze_twice_same_ledger
         (P := Concrete.platform) (L := ConcreteFacts.laws)
         (JStr "a") (Examples.world_of "0xAbC" Examples.ledger_pending)
         [JStr "a"]
         (encodeBytes (P := Concrete.platform)
            (Examples.record "0xAbC" "pending" 1700000000))
         [("data", JStr "FHE-MS-e30="); ("timestamp", JNum 1700000000);
          ("owner", JStr "0xAbC"); ("sampleType", JStr "Protein");
          ("status", JStr "pending")]);
  try (vm_compute; reflexivity); vm_compute; discriminate.
Defined.

(** ** The wallet *)

Section WalletMore.
Context {P : Platform}.

Lemma loadDataList_any_provider (b : bool) :
  commutes (with_app (app_setProvider b)) loadDataList.
Proof.
unfold loadDataList, loadKeys, loadOne, setIsRefreshing, setLoading,
  setDataList, consoleError, getContractReadOnly.
auto 40 with frame.
Qed.

(** Without a wallet nothing is written.  A disconnect clears the account
    and the connection; and while no wallet is connected, a create and an
    analysis alert and do nothing else, a submit issues no call and leaves
    the ledger, and a listing shows what it shows to a connected account. *)
Theorem without_wallet_nothing_is_written
        (w : World) (now1 now2 : Z) (rnd : string) (dataId : json) :
  provider (app w) = false ->
  uploadData now1 now2 rnd w
  = (Ok tt, with_env (env_alert "Please connect wallet first") w)
  /\ analyzeData dataId w
     = (Ok tt, with_env (env_alert "Please connect wallet first") w)
  /\ calls (env (snd (handleSubmit now1 now2 rnd w))) = calls (env w)
  /\ ledger (env (snd (handleSubmit now1 now2 rnd w))) = ledger (env w)
  /\ (forall acct,
        dataList (app (snd (loadDataList
                              (with_app (app_setProvider true)
                                 (with_app (app_setAccount acct) w)))))
        = dataList (app (snd (loadDataList w))))
  /\ (forall w0, provider (app (snd (onDisconnect w0))) = false
                 /\ account (app (snd (onDisconnect w0))) = ""
                 /\ env (snd (onDisconnect w0)) = env w0).
Proof.
intros Hp.
assert (Hup : uploadData now1 now2 rnd w
              = (Ok tt, with_env (env_alert "Please connect wallet first") w)).
{ unfold uploadData. rewrite bind_run. unfold gets. cbv iota beta.
  rewrite Hp. reflexivity. }
split; [exact Hup|]. split; [exact (analyzeData_disconnected _ _ Hp)|].
assert (Hsub : handleSubmit now1 now2 rnd w
               = (Ok tt, with_env (env_alert "Please fill required fields") w)
               \/ handleSubmit now1 now2 rnd w
                  = (Ok tt, with_env (env_alert "Please connect wallet first") w)).
{ unfold handleSubmit. rewrite bind_run. unfold gets. cbv iota beta.
  destruct (_ || _); [left; reflexivity|right; exact Hup]. }
split; [destruct Hsub as [-> | ->]; reflexivity|].
split; [destruct Hsub as [-> | ->]; reflexivity|].
split.
- intros acct.
  rewrite (loadDataList_any_provider true), (loadDataList_any_account acct).
  reflexivity.
- intros w0. repeat split.
Qed.


End WalletMore.

(** The world of the examples after a disconnect. *)
Lemma without_wallet_nothing_is_written_witness :
  let w := Examples.disconnected
             (Examples.world_of "0xAbC" Examples.ledger_pending) in
  uploadData (P := Concrete.platform) 1700000000123 1700000000456 "k3x9q2a" w
  = (Ok tt, with_env (env_alert "Please connect wallet first") w)
  /\ analyzeData (P := Concrete.platform) (JStr "a") w
     = (Ok tt, with_env (env_alert "Please connect wallet first") w).
Proof.
intros w.
destruct (without_wallet_nothing_is_written (P := Concrete.platform)
            w 1700000000123 1700000000456 "k3x9q2a" (JStr "a") eq_refl)
  as [H1 [H2 _]].
split; assumption.
Defined.


(** ** The bars of the chart *)

Section BarsMore.
Context {P : Platform}.


End BarsMore.


(** ** A record without an owner *)

Section ListedThenRendered.
Context {P : Platform}.


End ListedThenRendered.

